(** * Model selection for Gaussian HMMs: [my_model_selectors.py]

    A shallow embedding of the four selectors of [my_model_selectors.py]
    ([SelectorConstant], [SelectorBIC], [SelectorDIC], [SelectorCV]) and of
    their base class [ModelSelector].

    - Python floats are IEEE 754 binary64 numbers: Rocq's primitive floats.
    - Python ints are [Z]; lengths and indices are [nat].
    - The selector object ([self]) is a record; the code runs in a small
      monad that threads [self], may raise, and records every call made to
      the external collaborators (hmmlearn's fit and score, sklearn's
      [KFold().split], [print]).
    - hmmlearn, sklearn, [np.log] and [np.mean] are not part of the
      repository: they are the fields of the class [Libs].  [np.argmin] and
      [np.argmax] are written out, since the claims are about which index
      they return.

    Part I holds the definitions, Part II the theorems. *)

From Stdlib Require Import ZArith List Bool Lia String Sorted.
From Stdlib Require Import Floats.
From Stdlib Require QArith.
Import ListNotations.

Set Implicit Arguments.
Set Warnings "-inexact-float".

(* ################################################################## *)
(** * Part I: definitions *)

(* ================================================================== *)
(** ** Python floats *)

Module PyFloat.

Definition SFnan (x : spec_float) : bool :=
  match x with S754_nan => true | _ => false end.

(** [float(z)] for a Python int [z] rounds to the nearest double, ties to
    even, and raises [OverflowError] when the result does not fit.
    [binary_normalize] is the same rounding; it gives an infinity exactly
    when the result does not fit. *)
Definition Z2float (z : Z) : float :=
  SF2Prim (binary_normalize prec emax z 0 false).

Definition float_of_int (z : Z) : option float :=
  let f := Z2float z in
  if is_infinity f then None else Some f.

End PyFloat.

(* ================================================================== *)
(** ** NumPy's index of the first extremum *)

Module NumPy.

Local Open Scope float_scope.

(** [np.argmin] and [np.argmax] over a one-dimensional array of doubles.
    The scan keeps the first element as the current extremum [mp]; an
    element replaces it when the comparison [x >= mp] (for argmin) or
    [x <= mp] (for argmax) is false, and a NaN that replaces it ends the
    scan.  So the result is the index of the first NaN when there is one
    and of the first occurrence of the extremum otherwise.  On an empty
    array both raise [ValueError]: [None]. *)

Section Scan.

(** [keep x mp]: the comparison that leaves [mp] in place. *)
Variable keep : float -> float -> bool.

Fixpoint arg_scan (ip : list float) (i : nat) (mp : float) (ind : nat) : nat :=
  match ip with
  | [] => ind
  | x :: ip' =>
      if keep x mp then arg_scan ip' (S i) mp ind
      else if is_nan x then i
      else arg_scan ip' (S i) x i
  end.

Definition arg_ext (a : list float) : option nat :=
  match a with
  | [] => None
  | mp :: ip => Some (if is_nan mp then O else arg_scan ip 1 mp 0)
  end.

End Scan.

Definition argmin : list float -> option nat :=
  arg_ext (fun x mp => mp <=? x).

Definition argmax : list float -> option nat :=
  arg_ext (fun x mp => x <=? mp).

(** [first_best better a i]: [a[i]] exists, no element of [a] is strictly
    better than it ([better x y] is [x <? y] for a minimum and [y <? x] for
    a maximum), and no element before it ties with it. *)
Definition first_best (better : float -> float -> bool) (a : list float) (i : nat) : Prop :=
  exists b, nth_error a i = Some b /\
    (forall j x, nth_error a j = Some x -> better x b = false) /\
    (forall j x, nth_error a j = Some x -> (x =? b) = true -> (i <= j)%nat).

(** [least_at keep a i]: [a[i]] exists and compares as at least as good as
    every element; the scans reach this when no element is a NaN. *)
Definition least_at (keep : float -> float -> bool) (a : list float) (i : nat) : Prop :=
  exists b, nth_error a i = Some b /\
    forall j x, nth_error a j = Some x -> keep x b = true.

(** The laws the comparison of a scan and the strict order [better] that
    goes with it have to satisfy for the scan to find a first best
    element; both scans satisfy them (Part II). *)
Record scan_order (keep better : float -> float -> bool) : Prop := {
  so_total : forall x mp, keep x mp = false -> is_nan x = false ->
                          is_nan mp = false -> better x mp = true;
  so_trans : forall x mp y, better x mp = true -> keep y mp = true ->
                            better x y = true;
  so_weak : forall x y, better x y = true -> keep y x = true;
  so_refl : forall x, is_nan x = false -> keep x x = true;
  so_keep_worse : forall x y, keep y x = true -> better y x = false;
  so_nan : forall x y, is_nan y = true -> better x y = false;
  so_tie : forall x y, better x y = true -> (y =? x) = false
}.

End NumPy.

(* ================================================================== *)
(** ** The selector object, the external libraries, the monad *)

Section Data.

Variables row model : Type.

(** The fields [ModelSelector.__init__] stores.  [X] is the word's
    concatenated feature matrix, one [row] per frame; [lengths] the number
    of frames of each example; [sequences] the examples one by one. *)
Record selector : Type := mkSelector {
  words : list (string * list (list row));
  hwords : list (string * (list row * list nat));
  sequences : list (list row);
  X : list row;
  lengths : list nat;
  this_word : string;
  n_constant : Z;
  min_n_components : Z;
  max_n_components : Z;
  random_state : Z;
  verbose : bool
}.

(** The two lines [base_model] may print. *)
Inductive message : Type :=
| ModelCreated (word : string) (num_states : Z)
| FailureOn (word : string) (num_states : Z).

(** What a run does outside the selector object. *)
Inductive event : Type :=
| EvFit (n_components rs : Z) (X : list row) (lengths : list nat)
| EvScore (m : model) (X : list row) (lengths : list nat)
| EvSplit (n_samples : nat)
| EvPrint (msg : message).

(** The libraries the module calls.
    - [hmm_fit n rs X lengths]:
      [GaussianHMM(n_components=n, covariance_type="diag", n_iter=1000,
      random_state=rs, verbose=False).fit(X, lengths)]; [None] when it
      raises.  With a fixed seed the fit is a function of its arguments.
    - [hmm_score m X lengths]: [m.score(X, lengths)], [None] when it raises.
    - [n_features]: the number of columns of the feature matrices, the
      second component of [X.shape].
    - [KFold_split n]: the folds [KFold().split] yields on [n] samples, as
      (train indices, test indices); [None] when it raises. *)
Class Libs : Type := {
  n_features : Z;
  hmm_fit : Z -> Z -> list row -> list nat -> option model;
  hmm_score : model -> list row -> list nat -> option float;
  np_log : Z -> float;
  np_mean : list float -> float;
  KFold_split : nat -> option (list (list nat * list nat))
}.

(** A computation on [self]: a result or an exception ([None]), the
    selector afterwards (kept when an exception is raised, as Python keeps
    the attributes assigned before it), and the events, oldest first. *)
Definition M (A : Type) : Type := selector -> option A * selector * list event.

Definition ret {A} (a : A) : M A := fun self => (Some a, self, []).

Definition raise {A} : M A := fun self => (None, self, []).

Definition bind {A B} (m : M A) (k : A -> M B) : M B :=
  fun self =>
    match m self with
    | (Some a, self1, t1) =>
        let '(r, self2, t2) := k a self1 in (r, self2, t1 ++ t2)
    | (None, self1, t1) => (None, self1, t1)
    end.

(** [try: m except: h] *)
Definition try_except {A} (m h : M A) : M A :=
  fun self =>
    match m self with
    | (Some a, self1, t1) => (Some a, self1, t1)
    | (None, self1, t1) =>
        let '(r, self2, t2) := h self1 in (r, self2, t1 ++ t2)
    end.

Definition get_self : M selector := fun self => (Some self, self, []).

Definition emit (e : event) : M unit := fun self => (Some tt, self, [e]).

(** An operation that raises when it has no result. *)
Definition lift {A} (o : option A) : M A := fun self => (o, self, []).

(** [self.X, self.lengths = X', lengths'] *)
Definition with_X_lengths (self : selector) (X' : list row) (lengths' : list nat)
    : selector :=
  mkSelector (words self) (hwords self) (sequences self) X' lengths'
    (this_word self) (n_constant self) (min_n_components self)
    (max_n_components self) (random_state self) (verbose self).

Definition set_X_lengths (X' : list row) (lengths' : list nat) : M unit :=
  fun self => (Some tt, with_X_lengths self X' lengths', []).

(** The fits, the scorings and the splits among the events of a run. *)
Definition fit_events (t : list event) : list (Z * Z * list row * list nat) :=
  flat_map (fun e => match e with
                     | EvFit n rs X lengths => [(n, rs, X, lengths)]
                     | _ => []
                     end) t.

Definition score_events (t : list event) : list (model * list row * list nat) :=
  flat_map (fun e => match e with
                     | EvScore m X lengths => [(m, X, lengths)]
                     | _ => []
                     end) t.

Definition split_events (t : list event) : list nat :=
  flat_map (fun e => match e with EvSplit n => [n] | _ => [] end) t.

End Data.

Arguments ret {row model A} a.
Arguments raise {row model A}.
Arguments get_self {row model}.
Arguments lift {row model A} o.
Arguments emit {row model} e.
Arguments set_X_lengths {row model} X' lengths'.
Arguments n_features {row model Libs}.
Arguments hmm_fit {row model Libs}.
Arguments hmm_score {row model Libs}.
Arguments np_log {row model Libs}.
Arguments np_mean {row model Libs}.
Arguments KFold_split {row model Libs}.
Arguments EvFit {row model}.
Arguments EvScore {row model}.
Arguments EvSplit {row model}.
Arguments EvPrint {row model}.

Declare Scope py_scope.
Delimit Scope py_scope with py.

Notation "x <- m ;; k" := (bind m (fun x => k))
  (at level 61, m at next level, right associativity) : py_scope.
Notation "' p <- m ;; k" := (bind m (fun x => match x with p => k end))
  (at level 61, p pattern, m at next level, right associativity) : py_scope.
Notation "m ;; k" := (bind m (fun _ => k))
  (at level 61, right associativity) : py_scope.

Local Open Scope py_scope.

(* ================================================================== *)
(** ** Helpers the code relies on *)

(** Python's [range(start, stop)]. *)
Definition range (start stop : Z) : list Z :=
  map (fun i => (start + Z.of_nat i)%Z) (seq 0 (Z.to_nat (stop - start))).

(** [for b in l: acc = body b acc] *)
Fixpoint for_each {row model A B} (l : list B) (body : B -> A -> M row model A)
    (acc : A) : M row model A :=
  match l with
  | [] => ret acc
  | b :: l' => acc' <- body b acc ;; for_each l' body acc'
  end.

(** All the elements of a list of options, or nothing when one is missing. *)
Fixpoint all_some {A} (l : list (option A)) : option (list A) :=
  match l with
  | [] => Some []
  | None :: _ => None
  | Some a :: l' =>
      match all_some l' with Some r => Some (a :: r) | None => None end
  end.

(** Modelled from the spec: [asl_utils.combine_sequences], which the module
    imports and whose source is not at hand.  Section 4.6 has it "combine
    the training-fold sequences into one ObservationSet", and section 3 has
    an ObservationSet be the "concatenated feature vectors" of the examples
    "plus a sequence of per-example lengths (ordered, sum of lengths = total
    rows)".  An index outside [sequences] raises. *)
Definition combine_sequences {row} (split_index_list : list nat)
    (sequences : list (list row)) : option (list row * list nat) :=
  match all_some (map (nth_error sequences) split_index_list) with
  | Some sequences_fold => Some (List.concat sequences_fold, map (@List.length row) sequences_fold)
  | None => None
  end.

(** A keyword argument with its default. *)
Definition kwarg {A} (default : A) (given : option A) : A :=
  match given with Some a => a | None => default end.

(** [d[key]] on a dict; [None] is [KeyError]. *)
Fixpoint dict_get {V} (d : list (string * V)) (key : string) : option V :=
  match d with
  | [] => None
  | (k, v) :: d' => if String.eqb k key then Some v else dict_get d' key
  end.

(* ================================================================== *)
(** ** [ModelSelector] and its four strategies *)

Section Selectors.

Context {row model : Type} {L : Libs row model}.

Local Abbreviation M := (M row model).
Local Abbreviation selector := (selector row).

(** [ModelSelector.__init__]; a keyword left out is [None]. *)
Definition ModelSelector_init
    (all_word_sequences : list (string * list (list row)))
    (all_word_Xlengths : list (string * (list row * list nat)))
    (this_word : string)
    (n_constant min_n_components max_n_components random_state : option Z)
    (verbose : option bool) : option selector :=
  match dict_get all_word_sequences this_word with
  | None => None
  | Some sequences =>
      match dict_get all_word_Xlengths this_word with
      | None => None
      | Some (X, lengths) =>
          Some (mkSelector all_word_sequences all_word_Xlengths sequences
                  X lengths this_word
                  (kwarg 3%Z n_constant)
                  (kwarg 2%Z min_n_components) (kwarg 10%Z max_n_components)
                  (kwarg 14%Z random_state) (kwarg false verbose))
      end
  end.

(** [GaussianHMM(...).fit(X, lengths)] *)
Definition GaussianHMM_fit (n_components rs : Z) (X : list row)
    (lengths : list nat) : M model :=
  emit (EvFit n_components rs X lengths) ;;
  lift (hmm_fit n_components rs X lengths).

(** [model.score(X, lengths)]; on [None], the value [base_model] returns
    after a failed fit, the attribute lookup raises. *)
Definition score (hmm_model : option model) (X : list row)
    (lengths : list nat) : M float :=
  match hmm_model with
  | None => raise
  | Some m => emit (EvScore m X lengths) ;; lift (hmm_score m X lengths)
  end.

(** [split_method.split(sequences)] with [split_method = KFold()] *)
Definition split (sequences : list (list row)) : M (list (list nat * list nat)) :=
  emit (EvSplit (List.length sequences)) ;;
  lift (KFold_split (List.length sequences)).

Definition print (msg : message) : M unit := emit (EvPrint msg).

(** [X.shape] of a two-dimensional array. *)
Definition shape (X : list row) : Z * Z :=
  (Z.of_nat (List.length X), n_features).

(** [ModelSelector.base_model].  The filter it installs on deprecation
    warnings changes no value and is left out. *)
Definition base_model (num_states : Z) : M (option model) :=
  try_except
    (self <- get_self ;;
     hmm_model <- GaussianHMM_fit num_states (random_state self) (X self) (lengths self) ;;
     (if verbose self then print (ModelCreated (this_word self) num_states)
      else ret tt) ;;
     ret (Some hmm_model))
    (self <- get_self ;;
     (if verbose self then print (FailureOn (this_word self) num_states)
      else ret tt) ;;
     ret None).

(** *** [SelectorConstant] *)

Definition SelectorConstant_select : M (option model) :=
  self <- get_self ;;
  let best_num_components := n_constant self in
  base_model best_num_components.

(** *** [SelectorBIC] *)

(** The number of free parameters, as the expression of the code. *)
Definition n_params (n_components d : Z) : Z :=
  (n_components * (n_components - 1) + (n_components - 1) + 2 * d * n_components)%Z.

(** The loop over the candidates: [(all_n_components, all_scores)]. *)
Definition SelectorBIC_sweep : M (list Z * list float) :=
  self <- get_self ;;
  let '(N, d) := shape (X self) in
  for_each (range (min_n_components self) (max_n_components self + 1))
    (fun n_components '(all_n_components, all_scores) =>
       try_except
         (model <- base_model n_components ;;
          self <- get_self ;;
          logL <- score model (X self) (lengths self) ;;
          p <- lift (PyFloat.float_of_int (n_params n_components d)) ;;
          let bic := (-2 * logL + p * np_log N)%float in
          ret (all_n_components ++ [n_components], all_scores ++ [bic]))
         (ret (all_n_components, all_scores)))
    ([], []).

Definition SelectorBIC_best_num_components : M Z :=
  '(all_n_components, all_scores) <- SelectorBIC_sweep ;;
  self <- get_self ;;
  match all_scores with
  | [] => ret (n_constant self)
  | _ :: _ =>
      i <- lift (NumPy.argmin all_scores) ;;
      lift (nth_error all_n_components i)
  end.

Definition SelectorBIC_select : M (option model) :=
  best_num_components <- SelectorBIC_best_num_components ;;
  base_model best_num_components.

(** *** [SelectorDIC] *)

(** The loop over the candidates:
    [(all_n_components, all_logLs, sum_logL)]. *)
Definition SelectorDIC_sweep : M (list Z * list float * float) :=
  self <- get_self ;;
  for_each (range (min_n_components self) (max_n_components self + 1))
    (fun n_components '(all_n_components, all_logLs, sum_logL) =>
       try_except
         (model <- base_model n_components ;;
          self <- get_self ;;
          logL <- score model (X self) (lengths self) ;;
          ret (all_n_components ++ [n_components], all_logLs ++ [logL],
               (sum_logL + logL)%float))
         (ret (all_n_components, all_logLs, sum_logL)))
    ([], [], 0%float).

(** [logL - (sum_logL-logL) / M].  [M] is below the length of a list, far
    inside the range of a double: its conversion is the rounding alone. *)
Definition dic (sum_logL : float) (M : Z) (logL : float) : float :=
  (logL - (sum_logL - logL) / PyFloat.Z2float M)%float.

Definition SelectorDIC_best_num_components : M Z :=
  '(all_n_components, all_logLs, sum_logL) <- SelectorDIC_sweep ;;
  self <- get_self ;;
  let M := (Z.of_nat (List.length all_n_components) - 1)%Z in
  if (1 <? M)%Z then
    let all_scores := map (dic sum_logL M) all_logLs in
    i <- lift (NumPy.argmax all_scores) ;;
    lift (nth_error all_n_components i)
  else if (M =? 1)%Z then
    lift (nth_error all_n_components 0)
  else
    ret (n_constant self).

Definition SelectorDIC_select : M (option model) :=
  best_num_components <- SelectorDIC_best_num_components ;;
  base_model best_num_components.

(** *** [SelectorCV] *)

(** The body of [for cv_train_idx, cv_test_idx in split_method.split(...)]. *)
Definition SelectorCV_fold (n_components : Z) (fold : list nat * list nat)
    (scores : list float) : M (list float) :=
  let '(cv_train_idx, cv_test_idx) := fold in
  self <- get_self ;;
  '(X_train, lengths_train) <- lift (combine_sequences cv_train_idx (sequences self)) ;;
  set_X_lengths X_train lengths_train ;;
  self <- get_self ;;
  '(X_test, lengths_test) <- lift (combine_sequences cv_test_idx (sequences self)) ;;
  model <- base_model n_components ;;
  s <- score model X_test lengths_test ;;
  ret (scores ++ [s]).

(** What one candidate appends to [all_scores]. *)
Definition SelectorCV_candidate (n_components : Z) : M float :=
  self <- get_self ;;
  if (2 <? List.length (sequences self))%nat then
    folds <- split (sequences self) ;;
    scores <- for_each folds (SelectorCV_fold n_components) [] ;;
    ret (np_mean scores)
  else
    model <- base_model n_components ;;
    self <- get_self ;;
    score model (X self) (lengths self).

Definition SelectorCV_sweep : M (list Z * list float) :=
  self <- get_self ;;
  for_each (range (min_n_components self) (max_n_components self + 1))
    (fun n_components '(all_n_components, all_scores) =>
       try_except
         (s <- SelectorCV_candidate n_components ;;
          ret (all_n_components ++ [n_components], all_scores ++ [s]))
         (ret (all_n_components, all_scores)))
    ([], []).

Definition SelectorCV_best_num_components : M Z :=
  '(all_n_components, all_scores) <- SelectorCV_sweep ;;
  self <- get_self ;;
  match all_scores with
  | [] => ret (n_constant self)
  | _ :: _ =>
      i <- lift (NumPy.argmax all_scores) ;;
      lift (nth_error all_n_components i)
  end.

Definition SelectorCV_select : M (option model) :=
  best_num_components <- SelectorCV_best_num_components ;;
  base_model best_num_components.

End Selectors.

(* ================================================================== *)
(** ** Concrete libraries, to run the selectors on *)

Module Toy.

(** sklearn's [KFold(n_splits).split] without shuffling, on [n_samples]
    samples: the folds are consecutive blocks of indices, the first
    [n_samples mod n_splits] of them one longer than the others; each fold
    is the test set once and the other indices are the training set.  More
    folds than samples is a [ValueError]. *)
Fixpoint KFold_blocks (sizes : list nat) (current n_samples : nat)
    : list (list nat * list nat) :=
  match sizes with
  | [] => []
  | fold_size :: sizes' =>
      let stop := (current + fold_size)%nat in
      (seq 0 current ++ seq stop (n_samples - stop), seq current fold_size)
        :: KFold_blocks sizes' stop n_samples
  end.

Definition KFold (n_splits n_samples : nat) : option (list (list nat * list nat)) :=
  if (n_samples <? n_splits)%nat then None
  else
    let fold_sizes :=
      map (fun i => if (i <? n_samples mod n_splits)%nat
                    then S (n_samples / n_splits) else (n_samples / n_splits)%nat)
          (seq 0 n_splits) in
    Some (KFold_blocks fold_sizes 0 n_samples).

(** A frame is a number; a fitted model is the state count and the data it
    was fit on. *)
Definition row : Type := nat.
Definition model : Type := (Z * list row * list nat)%type.

Definition n_states (m : model) : Z := fst (fst m).
Definition trained_on (m : model) : list row * list nat := (snd (fst m), snd m).

(** The fit succeeds on the state counts [fits] accepts; the score of a
    model is [logL] of its state count, whatever the data; [ln] stands for
    [np.log]; the mean of the scores is their sum, left to right, over
    their number; the data has one column; there are three folds, the
    default of [KFold()] in the releases of sklearn the module was written
    for. *)
Definition libs (fits : Z -> bool) (logL : Z -> option float) (ln : Z -> float)
    : Libs row model :=
  {| n_features := 1;
     hmm_fit := fun n _ X lengths => if fits n then Some (n, X, lengths) else None;
     hmm_score := fun m _ _ => logL (n_states m);
     np_log := ln;
     np_mean := fun scores =>
       (fold_left PrimFloat.add scores 0 / PyFloat.Z2float (Z.of_nat (List.length scores)))%float;
     KFold_split := KFold 3 |}.

(** A word with the examples [seqs], built as the caller builds it: [X] is
    the concatenation of the examples. *)
Definition word (seqs : list (list row)) (n_constant lo hi : Z)
    : selector row :=
  mkSelector [("JOHN"%string, seqs)]
    [("JOHN"%string, (List.concat seqs, map (@List.length row) seqs))]
    seqs (List.concat seqs) (map (@List.length row) seqs)
    "JOHN"%string n_constant lo hi 14 false.

(** The result of a run, and the data [self] holds after it. *)
Definition result {A} (r : option A * selector row * list (event row model))
    : option A :=
  fst (fst r).

Definition data_after {A} (r : option A * selector row * list (event row model))
    : list row * list nat :=
  (X (snd (fst r)), lengths (snd (fst r))).

(** Which state counts fit, and the score of each, as tables. *)
Definition only (ok : list Z) (n : Z) : bool := existsb (Z.eqb n) ok.

Definition table (scores : list (Z * float)) (n : Z) : option float :=
  option_map snd (find (fun e => Z.eqb (fst e) n) scores).

(** [np.log] where the examples need it: on a matrix of one row. *)
Definition ln1 (N : Z) : float := if (N =? 1)%Z then 0%float else nan.

(** The scenario of the specification: every fit succeeds, and the
    log-likelihoods make the BIC scores 120.5, 110.2 and 115.8 for 2, 3 and
    4 states on a word of one frame. *)
Definition libs_john : Libs row model :=
  libs (fun _ => true)
       (table [(2%Z, -60.25); (3%Z, -55.1); (4%Z, -57.9)]%float) ln1.

Definition john : selector row := word [[0%nat]] 3 2 4.

(** Two candidates succeed, the second with the higher log-likelihood. *)
Definition libs_two : Libs row model :=
  libs (only [2; 3]%Z) (table [(2%Z, 1); (3%Z, 2)]%float) ln1.

Definition word_two : selector row := word [[0%nat]] 5 2 3.

(** Three candidates succeed; the last two have the same log-likelihood. *)
Definition libs_three : Libs row model :=
  libs (fun _ => true) (table [(2%Z, -9); (3%Z, -4); (4%Z, -4)]%float) ln1.

(** Every fit succeeds, only the model of two states can be scored. *)
Definition libs_one_scored : Libs row model :=
  libs (fun _ => true) (table [(2%Z, -10)]%float) ln1.

(** Only the fit with two states succeeds. *)
Definition libs_one_fit : Libs row model :=
  libs (only [2]%Z) (table [(2%Z, -10)]%float) ln1.

(** A word of three examples, of two, one and three frames. *)
Definition word_three_examples : selector row :=
  word [[1; 2]; [3]; [4; 5; 6]]%nat 3 2 4.

(** A word of two examples. *)
Definition word_two_examples : selector row :=
  word [[1; 2]; [3]]%nat 3 2 4.

End Toy.

(* ================================================================== *)
(** ** The candidates, read declaratively

    What the sweeps are meant to compute, written without the loop: the
    state counts of the range whose evaluation gives a score, in the order
    of the range, each with its score. *)

Definition successes {C} (f : Z -> option C) (l : list Z) : list (Z * C) :=
  flat_map (fun n => match f n with Some c => [(n, c)] | None => [] end) l.

Section Candidates.

Context {row model : Type} {L : Libs row model}.

Variable self : selector row.

Definition candidate_range : list Z :=
  range (min_n_components self) (max_n_components self + 1).

(** The log-likelihood of the word's own data under the model fit on it
    with [n] states; nothing when the fit or the scoring raises. *)
Definition logL_of (n : Z) : option float :=
  match hmm_fit n (random_state self) (X self) (lengths self) with
  | Some m => hmm_score m (X self) (lengths self)
  | None => None
  end.

(** The events of [base_model n] on the word's data: the fit, and the line
    printed after it when [verbose] is set. *)
Definition base_model_events (n : Z) : list (event row model) :=
  EvFit n (random_state self) (X self) (lengths self)
  :: (if verbose self then
        [EvPrint (match hmm_fit n (random_state self) (X self) (lengths self) with
                  | Some _ => ModelCreated (this_word self) n
                  | None => FailureOn (this_word self) n
                  end)]
      else []).

(** The events of a candidate fit on the word's data and scored on it: the
    scoring follows the fit when the fit gave a model. *)
Definition candidate_events (n : Z) : list (event row model) :=
  base_model_events n ++
  match hmm_fit n (random_state self) (X self) (lengths self) with
  | Some m => [EvScore m (X self) (lengths self)]
  | None => []
  end.

(** The BIC of the candidate with [n] states. *)
Definition bic_of (n : Z) : option float :=
  match logL_of n with
  | Some logL =>
      match PyFloat.float_of_int (n_params n n_features) with
      | Some p =>
          Some (-2 * logL + p * np_log (Z.of_nat (List.length (X self))))%float
      | None => None
      end
  | None => None
  end.

(** The score of one fold: fit on the training examples, score on the
    held-out ones. *)
Definition cv_fold_score (n : Z) (fold : list nat * list nat) : option float :=
  match combine_sequences (fst fold) (sequences self) with
  | Some (X_train, lengths_train) =>
      match combine_sequences (snd fold) (sequences self) with
      | Some (X_test, lengths_test) =>
          match hmm_fit n (random_state self) X_train lengths_train with
          | Some m => hmm_score m X_test lengths_test
          | None => None
          end
      | None => None
      end
  | None => None
  end.

(** The cross-validated score of the candidate with [n] states. *)
Definition cv_score_of (n : Z) : option float :=
  if (2 <? List.length (sequences self))%nat then
    match KFold_split (List.length (sequences self)) with
    | Some folds =>
        match all_some (map (cv_fold_score n) folds) with
        | Some scores => Some (np_mean scores)
        | None => None
        end
    | None => None
    end
  else logL_of n.

Definition BIC_candidates : list (Z * float) := successes bic_of candidate_range.
Definition DIC_candidates : list (Z * float) := successes logL_of candidate_range.
Definition CV_candidates : list (Z * float) := successes cv_score_of candidate_range.

(** [sum_logL] after the sweep: the log-likelihoods added up from zero, in
    the order of the candidates. *)
Definition DIC_sum : float :=
  fold_left PrimFloat.add (map snd DIC_candidates) 0%float.

(** The DIC of a candidate of log-likelihood [logL] among the successful
    ones. *)
Definition DIC_score (logL : float) : float :=
  dic DIC_sum (Z.of_nat (List.length DIC_candidates) - 1) logL.

Definition DIC_scored : list (Z * float) :=
  map (fun c => (fst c, DIC_score (snd c))) DIC_candidates.

End Candidates.

(** The criterion of DIC in exact arithmetic, over the rationals: once in
    the words of the specification,
    "DIC(n) = logL(n) - (1/M) * sum over the other candidates of logL",
    once as the code computes it, [logL - (sum_logL-logL) / M], with [M] the
    number of candidates minus one. *)
Module ExactDIC.

Import QArith.
Local Open Scope Q_scope.

Definition Qsum (l : list Q) : Q := fold_right Qplus 0 l.

Definition others (l : list Q) (i : nat) : list Q :=
  firstn i l ++ skipn (S i) l.

Definition DIC_spec (logLs : list Q) (i : nat) : Q :=
  let M := inject_Z (Z.of_nat (List.length logLs) - 1) in
  nth i logLs 0 - (1 / M) * Qsum (others logLs i).

Definition DIC_code (logLs : list Q) (i : nat) : Q :=
  let sum_logL := Qsum logLs in
  let M := inject_Z (Z.of_nat (List.length logLs) - 1) in
  nth i logLs 0 - (sum_logL - nth i logLs 0) / M.

End ExactDIC.

(** [best] is chosen among the scored candidates [C] as the first best one:
    it is a candidate, no candidate is strictly better ([better x y] is
    [x <? y] when the lowest score wins, [y <? x] when the highest does),
    and it has the smallest state count among the candidates of its
    score. *)
Definition first_best_of (better : float -> float -> bool)
    (C : list (Z * float)) (best : Z) : Prop :=
  exists sc, In (best, sc) C /\
    (forall n' sc', In (n', sc') C -> better sc' sc = false) /\
    (forall n' sc', In (n', sc') C -> (sc' =? sc)%float = true -> (best <= n')%Z).

Definition lower (x y : float) : bool := (x <? y)%float.
Definition higher (x y : float) : bool := (y <? x)%float.

(** The choice of BIC and CV: the constant default when no candidate
    succeeded, the first best candidate otherwise. *)
Definition chosen (better : float -> float -> bool) (C : list (Z * float))
    (default best : Z) : Prop :=
  (C = [] /\ best = default) \/ (C <> [] /\ first_best_of better C best).

(** [best] maximizes DIC: it is a successful candidate and no successful
    candidate has a strictly higher DIC. *)
Definition maximizes_DIC {row model} {L : Libs row model} (self : selector row)
    (best : Z) : Prop :=
  exists logL, In (best, logL) (DIC_candidates self) /\
    forall n' logL', In (n', logL') (DIC_candidates self) ->
      (DIC_score self logL <? DIC_score self logL')%float = false.

(** The choice of DIC: the first candidate of the highest DIC when three or
    more succeeded, the first successful candidate when two did, the
    constant default otherwise. *)
Definition DIC_chosen {row model} {L : Libs row model} (self : selector row)
    (best : Z) : Prop :=
  let C := DIC_candidates self in
  ((3 <= List.length C)%nat /\ first_best_of higher (DIC_scored self) best)
  \/ (List.length C = 2%nat /\ hd_error (map fst C) = Some best)
  \/ ((List.length C <= 1)%nat /\ best = n_constant self).

(* ================================================================== *)
(** ** More to state the behaviour of the selectors with *)

(** The lines printed among the events of a run. *)
Definition print_events {row model} (t : list (event row model)) : list message :=
  flat_map (fun e => match e with EvPrint msg => [msg] | _ => [] end) t.

(** The state count read off the two lists of a sweep:
    [all_n_components[arg(all_scores)] if all_scores else default]. *)
Definition pick (arg : list float -> option nat) (C : list (Z * float))
    (default : Z) : option Z :=
  match map snd C with
  | [] => Some default
  | _ :: _ =>
      match arg (map snd C) with
      | Some i => nth_error (map fst C) i
      | None => None
      end
  end.

(** The data in [self.X] and [self.lengths] after a computation that
    stored [o] there, or stored nothing, when they held [X] and [lengths]
    before. *)
Definition stored {row} (o : option (list row * list nat))
    (X : list row) (lengths : list nat) : list row * list nat :=
  match o with
  | Some d => d
  | None => (X, lengths)
  end.

(** The libraries of [Toy.libs_three] with five folds, the default of
    [KFold()] in later releases of sklearn; a word whose range of state
    counts is empty. *)
Definition libs_five_folds : Libs Toy.row Toy.model :=
  {| n_features := n_features (Libs := Toy.libs_three);
     hmm_fit := hmm_fit (Libs := Toy.libs_three);
     hmm_score := hmm_score (Libs := Toy.libs_three);
     np_log := np_log (Libs := Toy.libs_three);
     np_mean := np_mean (Libs := Toy.libs_three);
     KFold_split := Toy.KFold 5 |}.

Definition word_empty_range : selector Toy.row := Toy.word [[0%nat]] 3 5 2.

(** [np.log] on a matrix of six rows, and the libraries to fit the word of
    three examples with: every fit succeeds but the one of 3 states, and
    the log-likelihoods are -9 and -4 for 2 and 4 states. *)
Definition ln6 : float := 1.791759469228055%float.

Definition libs_six_rows : Libs Toy.row Toy.model :=
  Toy.libs (fun n => negb (n =? 3)%Z)
    (Toy.table [(2%Z, -9); (3%Z, -4); (4%Z, -4)]%float)
    (fun N => if (N =? 6)%Z then ln6 else nan).

Section Folds.

Context {row model : Type} {L : Libs row model}.

Variable self : selector row.
Variable folds : list (list nat * list nat).

(** [(X', lengths')] is the training part of one of the folds. *)
Definition train_of_fold (d : list row * list nat) : Prop :=
  exists fold, In fold folds /\ combine_sequences (fst fold) (sequences self) = Some d.

(** What cross-validation does outside [self]: it splits the examples of
    the word; it fits on the training part of a fold, with the seed of the
    selector and a state count of the range; it scores a model on the
    held-out part of the fold on whose training part the model was fit. *)
Definition cv_event_ok (e : event row model) : Prop :=
  match e with
  | EvFit n rs X' lengths' =>
      rs = random_state self /\ In n (candidate_range self)
      /\ train_of_fold (X', lengths')
  | EvScore m X' lengths' =>
      exists fold n X_train lengths_train,
        In fold folds /\ In n (candidate_range self)
        /\ combine_sequences (fst fold) (sequences self) = Some (X_train, lengths_train)
        /\ hmm_fit n (random_state self) X_train lengths_train = Some m
        /\ combine_sequences (snd fold) (sequences self) = Some (X', lengths')
  | EvSplit k => k = List.length (sequences self)
  | EvPrint _ => True
  end.

(** A computation of the cross-validation: whatever [self.X] and
    [self.lengths] hold when it starts, it gives the same result [r] and
    the same events; it touches no other attribute, and what it stores in
    these two, [o], if anything, is the training part of a fold.  [P] says
    more of [o] and [r]. *)
Definition cv_uniform {A}
    (P : option (list row * list nat) -> option A -> Prop)
    (m : M row model A) : Prop :=
  exists o r t,
    (forall Xa La,
       m (with_X_lengths self Xa La)
       = (r, with_X_lengths self (fst (stored o Xa La)) (snd (stored o Xa La)), t))
    /\ (forall d, o = Some d -> train_of_fold d)
    /\ Forall cv_event_ok t
    /\ P o r.

(** The first fold has a training part: its examples exist. *)
Definition first_fold_trains : Prop :=
  exists fold rest, folds = fold :: rest
    /\ combine_sequences (fst fold) (sequences self) <> None.

End Folds.

(* ################################################################## *)
(** * Part II: theorems *)

(* ================================================================== *)
(** ** The order of the doubles *)

Module PyFloatFacts.

Import PyFloat.
Local Open Scope float_scope.

Ltac sf_cases :=
  repeat match goal with
         | |- context [Pos.compare_cont Eq ?a ?b] =>
             change (Pos.compare_cont Eq a b) with (Pos.compare a b)
         | H : context [Pos.compare_cont Eq ?a ?b] |- _ =>
             change (Pos.compare_cont Eq a b) with (Pos.compare a b) in H
         end;
  repeat match goal with
         | |- context [Z.compare ?a ?b] => destruct (Z.compare_spec a b)
         | H : context [Z.compare ?a ?b] |- _ => destruct (Z.compare_spec a b)
         | |- context [Pos.compare ?a ?b] => destruct (Pos.compare_spec a b)
         | H : context [Pos.compare ?a ?b] |- _ => destruct (Pos.compare_spec a b)
         end;
  simpl in *; subst; try reflexivity; try discriminate; try lia.

Ltac sf_destruct x m e := destruct x as [ [] | [] | | [] m e].

Lemma SFeqb_refl x : SFeqb x x = negb (SFnan x).
Proof. unfold SFeqb. sf_destruct x m e; simpl; try reflexivity; sf_cases. Qed.

Lemma SFleb_nan x y : SFleb x y = true -> SFnan x = false /\ SFnan y = false.
Proof.
  unfold SFleb. sf_destruct x m1 e1; sf_destruct y m2 e2; simpl; intros H;
    try discriminate; auto.
Qed.

Lemma SFltb_nan x y : SFltb x y = true -> SFnan x = false /\ SFnan y = false.
Proof.
  unfold SFltb. sf_destruct x m1 e1; sf_destruct y m2 e2; simpl; intros H;
    try discriminate; auto.
Qed.

Lemma SFleb_total x y :
  SFleb x y = false -> SFnan x = false -> SFnan y = false -> SFltb y x = true.
Proof.
  unfold SFleb, SFltb. sf_destruct x m1 e1; sf_destruct y m2 e2; simpl;
    intros H Hx Hy; try reflexivity; try discriminate; sf_cases.
Qed.

Lemma SFleb_refl x : SFnan x = false -> SFleb x x = true.
Proof.
  unfold SFleb. sf_destruct x m e; simpl; intros H; try reflexivity;
    try discriminate; sf_cases.
Qed.

Lemma SFltb_leb x y : SFltb x y = true -> SFleb x y = true.
Proof.
  unfold SFleb, SFltb. destruct (SFcompare x y) as [ [] | ]; intros H;
    try reflexivity; discriminate.
Qed.

Lemma SFleb_not_ltb x y : SFleb x y = true -> SFltb y x = false.
Proof.
  unfold SFleb, SFltb. sf_destruct x m1 e1; sf_destruct y m2 e2; simpl;
    intros H; try reflexivity; try discriminate; sf_cases.
Qed.

Lemma SFltb_not_eqb x y : SFltb x y = true -> SFeqb y x = false.
Proof.
  unfold SFeqb, SFltb. sf_destruct x m1 e1; sf_destruct y m2 e2; simpl;
    intros H; try reflexivity; try discriminate; sf_cases.
Qed.

Lemma SFltb_not_eqb' x y : SFltb x y = true -> SFeqb x y = false.
Proof.
  unfold SFeqb, SFltb. destruct (SFcompare x y) as [ [] | ]; intros H;
    try reflexivity; discriminate.
Qed.

Lemma SFltb_leb_trans x y z :
  SFltb x y = true -> SFleb y z = true -> SFltb x z = true.
Proof.
  unfold SFleb, SFltb.
  sf_destruct x m1 e1; sf_destruct y m2 e2; sf_destruct z m3 e3;
    simpl; intros H1 H2; try reflexivity; try discriminate; sf_cases.
Qed.

Lemma SFleb_ltb_trans x y z :
  SFleb x y = true -> SFltb y z = true -> SFltb x z = true.
Proof.
  unfold SFleb, SFltb.
  sf_destruct x m1 e1; sf_destruct y m2 e2; sf_destruct z m3 e3;
    simpl; intros H1 H2; try reflexivity; try discriminate; sf_cases.
Qed.

(** The same facts on the primitive floats, through their specification. *)

Lemma is_nan_spec x : is_nan x = SFnan (Prim2SF x).
Proof.
  unfold is_nan. rewrite eqb_spec, SFeqb_refl. apply negb_involutive.
Qed.

Lemma leb_not_nan x y : (x <=? y) = true -> is_nan x = false /\ is_nan y = false.
Proof. rewrite leb_spec, !is_nan_spec. apply SFleb_nan. Qed.

Lemma ltb_not_nan x y : (x <? y) = true -> is_nan x = false /\ is_nan y = false.
Proof. rewrite ltb_spec, !is_nan_spec. apply SFltb_nan. Qed.

Lemma leb_total x y :
  (x <=? y) = false -> is_nan x = false -> is_nan y = false -> (y <? x) = true.
Proof. rewrite leb_spec, ltb_spec, !is_nan_spec. apply SFleb_total. Qed.

Lemma leb_refl x : is_nan x = false -> (x <=? x) = true.
Proof. rewrite leb_spec, is_nan_spec. apply SFleb_refl. Qed.

Lemma ltb_leb x y : (x <? y) = true -> (x <=? y) = true.
Proof. rewrite leb_spec, ltb_spec. apply SFltb_leb. Qed.

Lemma leb_not_ltb x y : (x <=? y) = true -> (y <? x) = false.
Proof. rewrite leb_spec, ltb_spec. apply SFleb_not_ltb. Qed.

Lemma ltb_not_eqb x y : (x <? y) = true -> (y =? x) = false.
Proof. rewrite eqb_spec, ltb_spec. apply SFltb_not_eqb. Qed.

Lemma ltb_not_eqb' x y : (x <? y) = true -> (x =? y) = false.
Proof. rewrite eqb_spec, ltb_spec. apply SFltb_not_eqb'. Qed.

Lemma ltb_leb_trans x y z : (x <? y) = true -> (y <=? z) = true -> (x <? z) = true.
Proof. rewrite !ltb_spec, leb_spec. apply SFltb_leb_trans. Qed.

Lemma leb_ltb_trans x y z : (x <=? y) = true -> (y <? z) = true -> (x <? z) = true.
Proof. rewrite !ltb_spec, leb_spec. apply SFleb_ltb_trans. Qed.

Lemma ltb_nan_r x y : is_nan y = true -> (x <? y) = false.
Proof.
  intros H. destruct (x <? y) eqn:E; [ | reflexivity ].
  apply ltb_not_nan in E. destruct E as [_ E]. congruence.
Qed.

Lemma ltb_nan_l x y : is_nan x = true -> (x <? y) = false.
Proof.
  intros H. destruct (x <? y) eqn:E; [ | reflexivity ].
  apply ltb_not_nan in E. destruct E as [E _]. congruence.
Qed.

Lemma eqb_nan_r x y : is_nan y = true -> (x =? y) = false.
Proof.
  rewrite is_nan_spec, eqb_spec. unfold SFeqb.
  destruct (Prim2SF y); try discriminate. intros _.
  destruct (Prim2SF x); reflexivity.
Qed.

End PyFloatFacts.

(* ================================================================== *)
(** ** What the scans of [np.argmin] and [np.argmax] return *)

Module NumPyFacts.

Import PyFloat PyFloatFacts NumPy.
Local Open Scope float_scope.

Lemma scan_order_min : scan_order (fun x mp => mp <=? x) lower.
Proof.
  constructor; unfold lower; simpl; intros.
  - apply leb_total; assumption.
  - eapply ltb_leb_trans; eassumption.
  - apply ltb_leb; assumption.
  - apply leb_refl; assumption.
  - apply leb_not_ltb; assumption.
  - apply ltb_nan_r; assumption.
  - apply ltb_not_eqb; assumption.
Qed.

Lemma scan_order_max : scan_order (fun x mp => x <=? mp) higher.
Proof.
  constructor; unfold higher; simpl; intros.
  - apply leb_total; assumption.
  - eapply leb_ltb_trans; eassumption.
  - apply ltb_leb; assumption.
  - apply leb_refl; assumption.
  - apply leb_not_ltb; assumption.
  - apply ltb_nan_l; assumption.
  - apply ltb_not_eqb'; assumption.
Qed.

Section ScanFacts.

Variables keep better : float -> float -> bool.
Hypothesis Hord : scan_order keep better.

Lemma nth_error_snoc {A} (pre : list A) x j y :
  nth_error (pre ++ [x]) j = Some y ->
  nth_error pre j = Some y \/ (j = List.length pre /\ y = x).
Proof.
  intros H. destruct (Nat.lt_ge_cases j (List.length pre)) as [Hlt | Hge].
  - left. rewrite nth_error_app1 in H; assumption.
  - right. rewrite nth_error_app2 in H by assumption.
    destruct (j - List.length pre)%nat as [ | k] eqn:E; simpl in H.
    + split; [lia | congruence].
    + destruct k; discriminate.
Qed.

(** The invariant of the scan: [mp = pre[ind]] is not a NaN, is at least as
    good as every element of the prefix [pre] read so far and strictly
    better than those before it. *)
Lemma arg_scan_first_best ip : forall pre mp ind,
  nth_error pre ind = Some mp ->
  is_nan mp = false ->
  (forall j x, nth_error pre j = Some x -> keep x mp = true) ->
  (forall j x, nth_error pre j = Some x -> (j < ind)%nat -> better mp x = true) ->
  first_best better (pre ++ ip) (arg_scan keep ip (List.length pre) mp ind).
Proof.
  induction ip as [ | x ip IH]; intros pre mp ind Hmp Hnan Hkeep Hstrict; simpl.
  - rewrite app_nil_r. exists mp. split; [assumption | split].
    + intros j x Hx. apply (so_keep_worse Hord). eauto.
    + intros j x Hx Htie. destruct (Nat.le_gt_cases ind j) as [ | Hlt]; [assumption | ].
      rewrite (so_tie Hord _ _ (Hstrict _ _ Hx Hlt)) in Htie. discriminate.
  - assert (Hind : (ind < List.length pre)%nat).
    { apply nth_error_Some. congruence. }
    replace (pre ++ x :: ip) with ((pre ++ [x]) ++ ip)
      by (rewrite <- app_assoc; reflexivity).
    replace (S (List.length pre)) with (List.length (pre ++ [x]))
      by (rewrite length_app; simpl; lia).
    destruct (keep x mp) eqn:Hk.
    + apply IH.
      * rewrite nth_error_app1; assumption.
      * assumption.
      * intros j y Hy. apply nth_error_snoc in Hy.
        destruct Hy as [Hy | [_ ->]]; eauto.
      * intros j y Hy Hlt. apply nth_error_snoc in Hy.
        destruct Hy as [Hy | [-> _]]; [eauto | lia].
    + destruct (is_nan x) eqn:Hx.
      * exists x. split.
        { rewrite <- app_assoc. simpl. rewrite nth_error_app2 by lia.
          rewrite Nat.sub_diag. reflexivity. }
        split.
        { intros j y _. apply (so_nan Hord). assumption. }
        { intros j y _ Htie. rewrite eqb_nan_r in Htie by assumption.
          discriminate. }
      * assert (Hb : better x mp = true) by (apply (so_total Hord); assumption).
        apply IH.
        { rewrite nth_error_app2 by lia. rewrite Nat.sub_diag. reflexivity. }
        { assumption. }
        { intros j y Hy. apply nth_error_snoc in Hy.
          destruct Hy as [Hy | [_ ->]].
          - apply (so_weak Hord). eapply (so_trans Hord); eauto.
          - apply (so_refl Hord). assumption. }
        { intros j y Hy Hlt. apply nth_error_snoc in Hy.
          destruct Hy as [Hy | [-> _]]; [ | lia].
          eapply (so_trans Hord); eauto. }
Qed.

Lemma arg_ext_first_best a i :
  arg_ext keep a = Some i -> first_best better a i.
Proof.
  destruct a as [ | mp ip]; simpl; [discriminate | ].
  intros H. injection H as <-.
  destruct (is_nan mp) eqn:Hnan.
  - exists mp. split; [reflexivity | split].
    + intros j y _. apply (so_nan Hord). assumption.
    + intros j y _ _. lia.
  - apply (@arg_scan_first_best ip [mp] mp 0%nat).
    + reflexivity.
    + assumption.
    + intros [ | [ | j]] y Hy; simpl in Hy; try discriminate.
      injection Hy as <-. apply (so_refl Hord). assumption.
    + intros j y _ Hlt. lia.
Qed.

Lemma arg_ext_nonempty x a : exists i, arg_ext keep (x :: a) = Some i.
Proof. simpl. eauto. Qed.

(** Without a NaN the chosen element compares as at least as good as every
    element. *)
Lemma first_best_least a i :
  first_best better a i ->
  Forall (fun x => is_nan x = false) a ->
  least_at keep a i.
Proof.
  intros (b & Hb & Hbest & _) Hnan. exists b. split; [assumption | ].
  intros j x Hx. rewrite Forall_forall in Hnan.
  destruct (keep x b) eqn:Hk; [reflexivity | ].
  specialize (Hbest _ _ Hx).
  rewrite (so_total Hord x b Hk) in Hbest.
  - discriminate.
  - apply Hnan. eapply nth_error_In; eassumption.
  - apply Hnan. eapply nth_error_In; eassumption.
Qed.

End ScanFacts.

End NumPyFacts.

(* ================================================================== *)
(** ** Lists of candidates *)

Section CandidateLists.

Lemma range_sorted start stop : StronglySorted Z.lt (range start stop).
Proof.
  unfold range. generalize (Z.to_nat (stop - start)) as len.
  intros len. generalize 0%nat as k. induction len as [ | len IH]; intros k; simpl.
  - constructor.
  - constructor; [apply IH | ].
    apply Forall_forall. intros z Hz. apply in_map_iff in Hz.
    destruct Hz as (i & <- & Hi). apply in_seq in Hi. lia.
Qed.

Lemma successes_In {C} (f : Z -> option C) l n c :
  In (n, c) (successes f l) <-> In n l /\ f n = Some c.
Proof.
  unfold successes. rewrite in_flat_map. split.
  - intros (m & Hm & Hin). destruct (f m) as [c' | ] eqn:E; simpl in Hin.
    + destruct Hin as [Hin | []]. injection Hin as -> ->. auto.
    + destruct Hin.
  - intros [Hn Hf]. exists n. split; [assumption | ]. rewrite Hf. left. reflexivity.
Qed.

Lemma successes_sorted {C} (f : Z -> option C) l :
  StronglySorted Z.lt l -> StronglySorted Z.lt (map fst (successes f l)).
Proof.
  induction 1 as [ | n l Hs IH Hall]; simpl; [constructor | ].
  destruct (f n) as [c | ]; simpl; [ | assumption].
  constructor; [assumption | ].
  rewrite Forall_forall in *. intros m Hm. apply in_map_iff in Hm.
  destruct Hm as ([m' c'] & <- & Hin). apply successes_In in Hin.
  apply Hall. tauto.
Qed.

Lemma sorted_nth_error l : StronglySorted Z.lt l -> forall i j a b,
  nth_error l i = Some a -> nth_error l j = Some b -> (i <= j)%nat -> (a <= b)%Z.
Proof.
  induction 1 as [ | x l Hs IH Hall]; intros i j a b Ha Hb Hij.
  - destruct i; discriminate.
  - destruct i as [ | i], j as [ | j]; simpl in *.
    + assert (a = b) by congruence. lia.
    + injection Ha as <-. rewrite Forall_forall in Hall.
      apply nth_error_In in Hb. apply Hall in Hb. lia.
    + lia.
    + eapply IH; eauto. lia.
Qed.

Lemma nth_error_map_fst_snd {A B} (C : list (A * B)) i a b :
  nth_error (map fst C) i = Some a -> nth_error (map snd C) i = Some b ->
  nth_error C i = Some (a, b).
Proof.
  rewrite !nth_error_map. destruct (nth_error C i) as [[a' b'] | ]; simpl;
    congruence.
Qed.

Lemma In_nth_error_snd {A B} (C : list (A * B)) a b :
  In (a, b) C ->
  exists j, nth_error (map fst C) j = Some a /\ nth_error (map snd C) j = Some b.
Proof.
  intros H. apply In_nth_error in H. destruct H as [j Hj]. exists j.
  rewrite !nth_error_map, Hj. auto.
Qed.

(** The index a scan returns on the scores of sorted candidates is that of
    the first best candidate. *)
Lemma pick_first_best keep better (C : list (Z * float)) i :
  NumPy.scan_order keep better ->
  StronglySorted Z.lt (map fst C) ->
  NumPy.arg_ext keep (map snd C) = Some i ->
  exists best, nth_error (map fst C) i = Some best /\ first_best_of better C best.
Proof.
  intros Hord Hsorted Harg.
  destruct (NumPyFacts.arg_ext_first_best Hord _ Harg) as (b & Hb & Hbest & Htie).
  destruct (nth_error (map fst C) i) as [best | ] eqn:Hn.
  - exists best. split; [reflexivity | ]. exists b. split.
    + eapply nth_error_In. apply nth_error_map_fst_snd; eassumption.
    + split.
      * intros n' sc' Hin. apply In_nth_error_snd in Hin.
        destruct Hin as (j & _ & Hj). eauto.
      * intros n' sc' Hin Heq. apply In_nth_error_snd in Hin.
        destruct Hin as (j & Hjn & Hj).
        eapply sorted_nth_error; eauto.
  - exfalso. apply nth_error_None in Hn. rewrite length_map in Hn.
    assert (Hlt : (i < List.length (map snd C))%nat)
      by (apply nth_error_Some; congruence).
    rewrite length_map in Hlt. lia.
Qed.

(** Without a NaN among the scores, a candidate that none strictly beats
    compares as at least as good as every candidate. *)
Lemma unbeaten_least keep better (C : list (Z * float)) best sc :
  NumPy.scan_order keep better ->
  In (best, sc) C ->
  (forall n' sc', In (n', sc') C -> better sc' sc = false) ->
  Forall (fun c => is_nan (snd c) = false) C ->
  forall n' sc', In (n', sc') C -> keep sc' sc = true.
Proof.
  intros Hord Hin Hbest Hnan n' sc' Hin'. rewrite Forall_forall in Hnan.
  destruct (keep sc' sc) eqn:Hk; [reflexivity | ].
  specialize (Hbest _ _ Hin').
  rewrite (NumPy.so_total Hord sc' sc Hk) in Hbest.
  - discriminate.
  - apply (Hnan _ Hin').
  - apply (Hnan _ Hin).
Qed.

End CandidateLists.

(* ================================================================== *)
(** ** The two readings of DIC agree in exact arithmetic

    In doubles the code's expression is the one the theorems below are
    about; the two differ there by the rounding of the sums. *)

Module ExactDICFacts.

Import QArith ExactDIC.
Local Open Scope Q_scope.

Lemma Qsum_others l : forall i, (i < List.length l)%nat ->
  Qsum (others l i) == Qsum l - nth i l 0.
Proof.
  induction l as [ | x l IH]; intros i Hi; simpl in Hi; [lia | ].
  destruct i as [ | i].
  - unfold others. simpl. ring.
  - change (x + Qsum (others l i) == x + Qsum l - nth i l 0).
    rewrite IH by lia. ring.
Qed.

Lemma DIC_code_spec logLs i :
  (i < List.length logLs)%nat -> DIC_code logLs i == DIC_spec logLs i.
Proof.
  intros Hi. unfold DIC_code, DIC_spec. cbv zeta.
  rewrite Qsum_others by assumption. unfold Qdiv. ring.
Qed.

End ExactDICFacts.

(* ================================================================== *)
(** ** Runs of the base class and of the loops *)

Section Runs.

Context {row model : Type} {L : Libs row model}.

Implicit Types (s : selector row) (n : Z).

Ltac run := unfold bind, try_except, get_self, emit, lift, ret, raise, print; simpl.

(** [base_model] never raises: a failed fit is the value [None]. *)
Lemma base_model_run n s :
  base_model n s
  = (Some (hmm_fit n (random_state s) (X s) (lengths s)), s, base_model_events s n).
Proof.
  unfold base_model, base_model_events, GaussianHMM_fit. run.
  destruct (hmm_fit n (random_state s) (X s) (lengths s));
    destruct (verbose s); reflexivity.
Qed.

(** A loop whose body leaves [self] as it is and never raises. *)
Lemma for_each_preserving {A B} (body : B -> A -> M row model A) s
    (step : B -> A -> A) (ev : B -> list (event row model)) :
  (forall b acc, body b acc s = (Some (step b acc), s, ev b)) ->
  forall l acc,
    for_each l body acc s
    = (Some (fold_left (fun a b => step b a) l acc), s, flat_map ev l).
Proof.
  intros Hbody. induction l as [ | b l IH]; intros acc; simpl.
  - reflexivity.
  - unfold bind. rewrite Hbody, IH. reflexivity.
Qed.

(** What the loops of BIC and CV accumulate: the successful candidates,
    state counts and scores side by side. *)
Lemma fold_successes (f : Z -> option float) l : forall ns scs,
  fold_left (fun (a : list Z * list float) n =>
               let '(ns, scs) := a in
               match f n with
               | Some sc => (ns ++ [n], scs ++ [sc])
               | None => (ns, scs)
               end) l (ns, scs)
  = (ns ++ map fst (successes f l), scs ++ map snd (successes f l)).
Proof.
  induction l as [ | n l IH]; intros ns scs; simpl.
  - rewrite !app_nil_r. reflexivity.
  - destruct (f n) as [sc | ]; simpl.
    + rewrite IH, <- !app_assoc. reflexivity.
    + apply IH.
Qed.

(** What the loop of DIC accumulates, with the running sum. *)
Lemma fold_successes_sum (f : Z -> option float) l : forall ns ls sum,
  fold_left (fun (a : list Z * list float * float) n =>
               let '(ns, ls, sum) := a in
               match f n with
               | Some logL => (ns ++ [n], ls ++ [logL], (sum + logL)%float)
               | None => (ns, ls, sum)
               end) l (ns, ls, sum)
  = (ns ++ map fst (successes f l), ls ++ map snd (successes f l),
     fold_left PrimFloat.add (map snd (successes f l)) sum).
Proof.
  induction l as [ | n l IH]; intros ns ls sum; simpl.
  - rewrite !app_nil_r. reflexivity.
  - destruct (f n) as [logL | ]; simpl.
    + rewrite IH, <- !app_assoc. reflexivity.
    + apply IH.
Qed.

(** *** The sweep of [SelectorBIC] *)

Lemma SelectorBIC_sweep_run s :
  SelectorBIC_sweep s
  = (Some (map fst (BIC_candidates s), map snd (BIC_candidates s)), s,
     flat_map (candidate_events s) (candidate_range s)).
Proof.
  unfold SelectorBIC_sweep, bind at 1, get_self, shape.
  rewrite for_each_preserving with
    (step := fun n (a : list Z * list float) =>
               let '(ns, scs) := a in
               match bic_of s n with
               | Some sc => (ns ++ [n], scs ++ [sc])
               | None => (ns, scs)
               end)
    (ev := candidate_events s).
  - rewrite fold_successes. reflexivity.
  - intros n [ns scs]. unfold try_except, bind at 1. rewrite base_model_run.
    unfold bic_of, logL_of, candidate_events, score. run.
    destruct (hmm_fit n (random_state s) (X s) (lengths s)) as [m | ]; run.
    + destruct (hmm_score m (X s) (lengths s)) as [logL | ]; run.
      * destruct (PyFloat.float_of_int (n_params n n_features)); run;
          rewrite ?app_nil_r; reflexivity.
      * rewrite ?app_nil_r. reflexivity.
    + rewrite ?app_nil_r. reflexivity.
Qed.

(** *** The sweep of [SelectorDIC] *)

Lemma SelectorDIC_sweep_run s :
  SelectorDIC_sweep s
  = (Some (map fst (DIC_candidates s), map snd (DIC_candidates s), DIC_sum s), s,
     flat_map (candidate_events s) (candidate_range s)).
Proof.
  unfold SelectorDIC_sweep, bind at 1, get_self.
  rewrite for_each_preserving with
    (step := fun n (a : list Z * list float * float) =>
               let '(ns, ls, sum) := a in
               match logL_of s n with
               | Some logL => (ns ++ [n], ls ++ [logL], (sum + logL)%float)
               | None => (ns, ls, sum)
               end)
    (ev := candidate_events s).
  - rewrite fold_successes_sum. reflexivity.
  - intros n [[ns ls] sum]. unfold try_except, bind at 1. rewrite base_model_run.
    unfold logL_of, candidate_events, score. run.
    destruct (hmm_fit n (random_state s) (X s) (lengths s)) as [m | ]; run.
    + destruct (hmm_score m (X s) (lengths s)) as [logL | ]; run;
        rewrite ?app_nil_r; reflexivity.
    + rewrite ?app_nil_r. reflexivity.
Qed.

(** *** The sweep of [SelectorCV] *)

(** A loop whose body never raises and keeps an invariant of [self]. *)
Lemma for_each_invariant {A B} (I : selector row -> Prop)
    (body : B -> A -> M row model A) (step : B -> A -> A) :
  (forall b acc s, I s ->
     exists s' t, body b acc s = (Some (step b acc), s', t) /\ I s') ->
  forall l acc s, I s ->
    exists s' t,
      for_each l body acc s = (Some (fold_left (fun a b => step b a) l acc), s', t)
      /\ I s'.
Proof.
  intros Hbody. induction l as [ | b l IH]; intros acc s Hs; simpl.
  - exists s, []. auto.
  - destruct (Hbody b acc s Hs) as (s1 & t1 & E1 & Hs1).
    destruct (IH (step b acc) s1 Hs1) as (s2 & t2 & E2 & Hs2).
    exists s2, (t1 ++ t2). unfold bind. rewrite E1, E2. auto.
Qed.

(** With at most two examples a candidate is fit once on the word's data
    and scored once on it; [self] is left as it is. *)
Lemma SelectorCV_candidate_small s n :
  (List.length (sequences s) <= 2)%nat ->
  SelectorCV_candidate n s = (logL_of s n, s, candidate_events s n).
Proof.
  intros Hlen. unfold SelectorCV_candidate, bind at 1, get_self.
  replace (2 <? List.length (sequences s))%nat with false
    by (symmetry; apply Nat.ltb_ge; assumption).
  unfold bind at 1. rewrite base_model_run.
  unfold logL_of, candidate_events, score. run.
  destruct (hmm_fit n (random_state s) (X s) (lengths s)) as [m | ]; run.
  - destruct (hmm_score m (X s) (lengths s)); reflexivity.
  - rewrite app_nil_r. reflexivity.
Qed.

Lemma cv_score_of_small s n :
  (List.length (sequences s) <= 2)%nat -> cv_score_of s n = logL_of s n.
Proof.
  intros Hlen. unfold cv_score_of.
  replace (2 <? List.length (sequences s))%nat with false
    by (symmetry; apply Nat.ltb_ge; assumption).
  reflexivity.
Qed.

Lemma SelectorCV_sweep_small s :
  (List.length (sequences s) <= 2)%nat ->
  SelectorCV_sweep s
  = (Some (map fst (CV_candidates s), map snd (CV_candidates s)), s,
     flat_map (candidate_events s) (candidate_range s)).
Proof.
  intros Hlen. unfold SelectorCV_sweep, bind at 1, get_self.
  rewrite for_each_preserving with
    (step := fun n (a : list Z * list float) =>
               let '(ns, scs) := a in
               match cv_score_of s n with
               | Some sc => (ns ++ [n], scs ++ [sc])
               | None => (ns, scs)
               end)
    (ev := candidate_events s).
  - rewrite fold_successes. reflexivity.
  - intros n [ns scs]. unfold try_except, bind at 1.
    rewrite SelectorCV_candidate_small, cv_score_of_small by assumption.
    destruct (logL_of s n); run; rewrite ?app_nil_r; reflexivity.
Qed.

(** With more examples, each fold overwrites [self.X] and [self.lengths]
    with its training examples; the other attributes stay. *)
Lemma SelectorCV_fold_run s n fold scores Xa La :
  exists Xb Lb t,
    SelectorCV_fold n fold scores (with_X_lengths s Xa La)
    = (match cv_fold_score s n fold with
       | Some sc => Some (scores ++ [sc])
       | None => None
       end, with_X_lengths s Xb Lb, t).
Proof.
  destruct fold as [tr te]. unfold SelectorCV_fold, cv_fold_score. simpl fst. simpl snd.
  unfold bind at 1, get_self. unfold bind at 1, lift. simpl sequences.
  destruct (combine_sequences tr (sequences s)) as [[Xtr Ltr] | ].
  - unfold bind at 1, set_X_lengths. unfold bind at 1, get_self.
    unfold bind at 1, lift. simpl sequences.
    destruct (combine_sequences te (sequences s)) as [[Xte Lte] | ].
    + unfold bind at 1. rewrite base_model_run. simpl.
      destruct (hmm_fit n (random_state s) Xtr Ltr) as [m | ]; run.
      * destruct (hmm_score m Xte Lte); exists Xtr, Ltr; eexists; reflexivity.
      * exists Xtr, Ltr. eexists. reflexivity.
    + exists Xtr, Ltr. eexists. reflexivity.
  - exists Xa, La. eexists. reflexivity.
Qed.

Lemma SelectorCV_folds_run s n folds : forall scores Xa La,
  exists Xb Lb t,
    for_each folds (SelectorCV_fold n) scores (with_X_lengths s Xa La)
    = (match all_some (map (cv_fold_score s n) folds) with
       | Some scs => Some (scores ++ scs)
       | None => None
       end, with_X_lengths s Xb Lb, t).
Proof.
  induction folds as [ | fold folds IH]; intros scores Xa La; simpl.
  - exists Xa, La, []. rewrite app_nil_r. reflexivity.
  - destruct (SelectorCV_fold_run s n fold scores Xa La) as (X1 & L1 & t1 & E1).
    unfold bind. rewrite E1.
    destruct (cv_fold_score s n fold) as [sc | ]; [ | eauto].
    destruct (IH (scores ++ [sc]) X1 L1) as (X2 & L2 & t2 & E2). rewrite E2.
    destruct (all_some (map (cv_fold_score s n) folds)) as [scs | ]; [ | eauto].
    rewrite <- app_assoc. eauto.
Qed.

Lemma SelectorCV_candidate_large s n Xa La :
  (2 < List.length (sequences s))%nat ->
  exists Xb Lb t,
    SelectorCV_candidate n (with_X_lengths s Xa La)
    = (cv_score_of s n, with_X_lengths s Xb Lb, t).
Proof.
  intros Hlen. unfold SelectorCV_candidate, cv_score_of, bind at 1, get_self.
  cbn [sequences with_X_lengths].
  replace (2 <? List.length (sequences s))%nat with true
    by (symmetry; apply Nat.ltb_lt; assumption).
  unfold bind at 1, split. run.
  destruct (KFold_split (List.length (sequences s))) as [folds | ].
  - destruct (SelectorCV_folds_run s n folds [] Xa La) as (Xb & Lb & t & E).
    rewrite E. simpl.
    destruct (all_some (map (cv_fold_score s n) folds));
      exists Xb, Lb; eexists; reflexivity.
  - exists Xa, La. eexists. reflexivity.
Qed.

Lemma with_X_lengths_self s : s = with_X_lengths s (X s) (lengths s).
Proof. destruct s; reflexivity. Qed.

(** Whatever the number of examples, the sweep never raises and collects
    the successful candidates; it may leave other data in [self.X] and
    [self.lengths]. *)
Lemma SelectorCV_sweep_run s :
  exists Xb Lb t,
    SelectorCV_sweep s
    = (Some (map fst (CV_candidates s), map snd (CV_candidates s)),
       with_X_lengths s Xb Lb, t).
Proof.
  destruct (Nat.le_gt_cases (List.length (sequences s)) 2) as [Hlen | Hlen].
  - exists (X s), (lengths s). rewrite <- with_X_lengths_self.
    rewrite SelectorCV_sweep_small by assumption. eauto.
  - unfold SelectorCV_sweep, bind at 1, get_self.
    destruct (@for_each_invariant (list Z * list float) Z
                (fun s' => exists Xa La, s' = with_X_lengths s Xa La)
                (fun n_components '(all_n_components, all_scores) =>
                   try_except
                     (bind (SelectorCV_candidate n_components)
                        (fun sc => ret (all_n_components ++ [n_components],
                                        all_scores ++ [sc])))
                     (ret (all_n_components, all_scores)))
                (fun n (a : list Z * list float) =>
                   let '(ns, scs) := a in
                   match cv_score_of s n with
                   | Some sc => (ns ++ [n], scs ++ [sc])
                   | None => (ns, scs)
                   end))
      with (l := candidate_range s) (acc := (@nil Z, @nil float)) (s := s)
      as (s' & t & E & (Xb & Lb & ->)).
    + intros n [ns scs] s1 (Xa & La & ->).
      destruct (SelectorCV_candidate_large s n Xa La Hlen) as (Xb & Lb & t & E).
      unfold try_except, bind. rewrite E.
      destruct (cv_score_of s n); run;
        (do 2 eexists; split; [reflexivity | exists Xb, Lb; reflexivity]).
    + exists (X s), (lengths s). apply with_X_lengths_self.
    + unfold candidate_range in E. rewrite E, fold_successes. simpl.
      exists Xb, Lb. eexists. reflexivity.
Qed.

(** *** The state count each selector settles on *)

Lemma SelectorBIC_best_run s :
  exists best,
    SelectorBIC_best_num_components s
    = (Some best, s, flat_map (candidate_events s) (candidate_range s))
    /\ chosen lower (BIC_candidates s) (n_constant s) best.
Proof.
  unfold SelectorBIC_best_num_components, bind at 1.
  rewrite SelectorBIC_sweep_run. unfold chosen.
  destruct (BIC_candidates s) as [ | c C] eqn:EC.
  - exists (n_constant s). run. rewrite ?app_nil_r. auto.
  - destruct (NumPyFacts.arg_ext_nonempty (fun x mp => (mp <=? x)%float)
                (snd c) (map snd C)) as [i Hi].
    destruct (@pick_first_best _ lower (c :: C) i NumPyFacts.scan_order_min)
      as (best & Hn & Hbest).
    + rewrite <- EC. apply successes_sorted, range_sorted.
    + exact Hi.
    + exists best. split.
      * simpl map. unfold NumPy.argmin. run. simpl in Hi, Hn.
        injection Hi as Hi. rewrite Hi, Hn. rewrite ?app_nil_r. reflexivity.
      * right. split; [discriminate | assumption].
Qed.

Lemma SelectorBIC_select_run s :
  exists best,
    SelectorBIC_select s
    = (Some (hmm_fit best (random_state s) (X s) (lengths s)), s,
       flat_map (candidate_events s) (candidate_range s) ++ base_model_events s best)
    /\ chosen lower (BIC_candidates s) (n_constant s) best.
Proof.
  destruct (SelectorBIC_best_run s) as (best & E & H). exists best.
  split; [ | assumption].
  unfold SelectorBIC_select, bind. rewrite E, base_model_run. reflexivity.
Qed.

Lemma DIC_scored_fst s : map fst (DIC_scored s) = map fst (DIC_candidates s).
Proof. unfold DIC_scored. rewrite map_map. reflexivity. Qed.

Lemma DIC_scored_snd s :
  map snd (DIC_scored s)
  = map (dic (DIC_sum s) (Z.of_nat (List.length (DIC_candidates s)) - 1))
      (map snd (DIC_candidates s)).
Proof. unfold DIC_scored, DIC_score. rewrite !map_map. reflexivity. Qed.

Lemma SelectorDIC_best_run s :
  exists best,
    SelectorDIC_best_num_components s
    = (Some best, s, flat_map (candidate_events s) (candidate_range s))
    /\ DIC_chosen s best.
Proof.
  unfold SelectorDIC_best_num_components, bind at 1.
  rewrite SelectorDIC_sweep_run. unfold DIC_chosen. cbv zeta.
  unfold bind at 1, get_self. rewrite length_map.
  destruct (1 <? Z.of_nat (List.length (DIC_candidates s)) - 1)%Z eqn:E1.
  - apply Z.ltb_lt in E1. rewrite <- DIC_scored_snd.
    destruct (DIC_scored s) as [ | c C] eqn:EC.
    { apply (f_equal (@List.length _)) in EC. unfold DIC_scored in EC.
      rewrite length_map in EC. simpl in EC. lia. }
    destruct (NumPyFacts.arg_ext_nonempty (fun x mp => (x <=? mp)%float)
                (snd c) (map snd C)) as [i Hi].
    destruct (@pick_first_best _ higher (c :: C) i NumPyFacts.scan_order_max)
      as (best & Hn & Hbest).
    + rewrite <- EC, DIC_scored_fst. apply successes_sorted, range_sorted.
    + exact Hi.
    + exists best. split.
      * unfold NumPy.argmax. run. simpl in Hi. injection Hi as Hi. rewrite Hi.
        rewrite <- EC, DIC_scored_fst in Hn. rewrite Hn.
        rewrite ?app_nil_r. reflexivity.
      * left. split; [lia | assumption].
  - apply Z.ltb_ge in E1.
    destruct (Z.of_nat (List.length (DIC_candidates s)) - 1 =? 1)%Z eqn:E2.
    + apply Z.eqb_eq in E2.
      destruct (DIC_candidates s) as [ | [n1 l1] C]; [simpl in E2; lia | ].
      exists n1. split.
      * run. rewrite ?app_nil_r. reflexivity.
      * right. left. split; [cbn [List.length] in *; lia | reflexivity].
    + apply Z.eqb_neq in E2. exists (n_constant s). split.
      * run. rewrite ?app_nil_r. reflexivity.
      * right. right. split; [lia | reflexivity].
Qed.

Lemma SelectorDIC_select_run s :
  exists best,
    SelectorDIC_select s
    = (Some (hmm_fit best (random_state s) (X s) (lengths s)), s,
       flat_map (candidate_events s) (candidate_range s) ++ base_model_events s best)
    /\ DIC_chosen s best.
Proof.
  destruct (SelectorDIC_best_run s) as (best & E & H). exists best.
  split; [ | assumption].
  unfold SelectorDIC_select, bind. rewrite E, base_model_run. reflexivity.
Qed.

(** The choice once a sweep has collected the candidates [C], for the two
    selectors that take the index of an extremum or the default. *)
Lemma choice_run keep better (C : list (Z * float)) s :
  NumPy.scan_order keep better ->
  StronglySorted Z.lt (map fst C) ->
  exists best,
    match map snd C with
    | [] => ret (n_constant s)
    | _ :: _ =>
        bind (lift (NumPy.arg_ext keep (map snd C)))
          (fun i => lift (nth_error (map fst C) i))
    end s = (Some best, s, @nil (event row model))
    /\ chosen better C (n_constant s) best.
Proof.
  intros Hord Hsorted. unfold chosen. destruct C as [ | c C].
  - exists (n_constant s). simpl. auto.
  - destruct (NumPyFacts.arg_ext_nonempty keep (snd c) (map snd C)) as [i Hi].
    destruct (@pick_first_best keep better (c :: C) i Hord Hsorted Hi)
      as (best & Hn & Hbest).
    exists best. split.
    + simpl map in *. run. simpl in Hi. injection Hi as Hi.
      rewrite Hi. simpl in Hn. rewrite Hn. reflexivity.
    + right. split; [discriminate | assumption].
Qed.

Lemma SelectorCV_best_run s :
  exists best Xb Lb t,
    SelectorCV_best_num_components s = (Some best, with_X_lengths s Xb Lb, t)
    /\ chosen higher (CV_candidates s) (n_constant s) best.
Proof.
  destruct (SelectorCV_sweep_run s) as (Xb & Lb & t & E).
  destruct (@choice_run (fun x mp => (x <=? mp)%float) higher (CV_candidates s)
              (with_X_lengths s Xb Lb) NumPyFacts.scan_order_max)
    as (best & Hrun & Hbest).
  { apply successes_sorted, range_sorted. }
  exists best, Xb, Lb, t. split; [ | exact Hbest].
  unfold SelectorCV_best_num_components, bind at 1. rewrite E.
  unfold bind at 1, get_self. unfold NumPy.argmax.
  simpl n_constant in Hrun. rewrite Hrun. rewrite !app_nil_r. reflexivity.
Qed.

Lemma SelectorCV_best_small s :
  (List.length (sequences s) <= 2)%nat ->
  exists best,
    SelectorCV_best_num_components s
    = (Some best, s, flat_map (candidate_events s) (candidate_range s))
    /\ chosen higher (CV_candidates s) (n_constant s) best.
Proof.
  intros Hlen.
  destruct (@choice_run (fun x mp => (x <=? mp)%float) higher (CV_candidates s)
              s NumPyFacts.scan_order_max)
    as (best & Hrun & Hbest).
  { apply successes_sorted, range_sorted. }
  exists best. split; [ | exact Hbest].
  unfold SelectorCV_best_num_components, bind at 1.
  rewrite SelectorCV_sweep_small by assumption.
  unfold bind at 1, get_self. unfold NumPy.argmax.
  rewrite Hrun. rewrite !app_nil_r. reflexivity.
Qed.

End Runs.

(* ================================================================== *)
(** ** The claims *)

Section Claims.

Context {row model : Type} {L : Libs row model}.

Implicit Types (s : selector row) (n : Z).

Lemma range_In start stop n : In n (range start stop) <-> (start <= n < stop)%Z.
Proof.
  unfold range. rewrite in_map_iff. split.
  - intros (i & <- & Hi). apply in_seq in Hi. lia.
  - intros H. exists (Z.to_nat (n - start)). split; [lia | ].
    apply in_seq. lia.
Qed.

Lemma fit_events_app (t1 t2 : list (event row model)) :
  fit_events (t1 ++ t2) = fit_events t1 ++ fit_events t2.
Proof. apply flat_map_app. Qed.

Lemma score_events_app (t1 t2 : list (event row model)) :
  score_events (t1 ++ t2) = score_events t1 ++ score_events t2.
Proof. apply flat_map_app. Qed.

Lemma split_events_app (t1 t2 : list (event row model)) :
  split_events (t1 ++ t2) = split_events t1 ++ split_events t2.
Proof. apply flat_map_app. Qed.

Lemma base_model_fit_events s n :
  fit_events (base_model_events s n)
  = [(n, random_state s, X s, lengths s)].
Proof. unfold base_model_events. simpl. destruct (verbose s); reflexivity. Qed.

Lemma base_model_score_events s n : score_events (base_model_events s n) = [].
Proof. unfold base_model_events. simpl. destruct (verbose s); reflexivity. Qed.

Lemma base_model_split_events s n : split_events (base_model_events s n) = [].
Proof. unfold base_model_events. simpl. destruct (verbose s); reflexivity. Qed.

Lemma successes_Forall2 {C} (f : Z -> option C) (P : Z -> C -> Prop) l :
  (forall n c, f n = Some c -> P n c) ->
  Forall2 P (map fst (successes f l)) (map snd (successes f l)).
Proof.
  intros H. induction l as [ | n l IH]; simpl; [constructor | ].
  destruct (f n) as [c | ] eqn:E; simpl; [ | exact IH].
  constructor; [apply H; assumption | exact IH].
Qed.

(** C7: [SelectorConstant.select] makes exactly one fit, at [n_constant] on
    the word's data, and returns what that fit gives: the model, or [None]
    when the fit fails.  It scores nothing and splits nothing.  A selector
    built without [n_constant] has [n_constant = 3]. *)
Theorem SelectorConstant_select_one_fit s :
  (exists t,
     SelectorConstant_select s
     = (Some (hmm_fit (n_constant s) (random_state s) (X s) (lengths s)), s, t)
     /\ fit_events t = [(n_constant s, random_state s, X s, lengths s)]
     /\ score_events t = [] /\ split_events t = [])
  /\ (forall ws hw w lo hi rs v s',
        ModelSelector_init ws hw w None lo hi rs v = Some s' ->
        n_constant s' = 3%Z).
Proof.
  split.
  - exists (base_model_events s (n_constant s)).
    unfold SelectorConstant_select, bind, get_self. rewrite base_model_run.
    rewrite base_model_fit_events, base_model_score_events,
      base_model_split_events. auto.
  - intros ws hw w lo hi rs v s'. unfold ModelSelector_init.
    destruct (dict_get ws w); [ | discriminate].
    destruct (dict_get hw w) as [[X0 l0] | ]; [ | discriminate].
    intros H. injection H as <-. reflexivity.
Qed.

Lemma candidates_In (f : Z -> option float) s n sc :
  In (n, sc) (successes f (candidate_range s))
  <-> (min_n_components s <= n <= max_n_components s)%Z /\ f n = Some sc.
Proof.
  rewrite successes_In. unfold candidate_range. rewrite range_In.
  split; intros [H1 H2]; (split; [lia | assumption]).
Qed.

Lemma sweep_fit_events s l :
  fit_events (flat_map (candidate_events s) l)
  = map (fun n => (n, random_state s, X s, lengths s)) l.
Proof.
  induction l as [ | n l IH]; [reflexivity | ].
  cbn [flat_map map]. rewrite fit_events_app, IH. unfold candidate_events.
  rewrite fit_events_app, base_model_fit_events.
  destruct (hmm_fit n (random_state s) (X s) (lengths s)); reflexivity.
Qed.

Lemma sweep_score_events s l :
  score_events (flat_map (candidate_events s) l)
  = flat_map (fun n =>
                match hmm_fit n (random_state s) (X s) (lengths s) with
                | Some m => [(m, X s, lengths s)]
                | None => []
                end) l.
Proof.
  induction l as [ | n l IH]; [reflexivity | ].
  cbn [flat_map map]. rewrite score_events_app, IH. unfold candidate_events.
  rewrite score_events_app, base_model_score_events.
  destruct (hmm_fit n (random_state s) (X s) (lengths s)); reflexivity.
Qed.

Lemma sweep_split_events s l :
  split_events (flat_map (candidate_events s) l) = [].
Proof.
  induction l as [ | n l IH]; [reflexivity | ].
  cbn [flat_map map]. rewrite split_events_app, IH. unfold candidate_events.
  rewrite split_events_app, base_model_split_events.
  destruct (hmm_fit n (random_state s) (X s) (lengths s)); reflexivity.
Qed.

Lemma first_best_of_In better C best :
  first_best_of better C best -> In best (map fst C).
Proof.
  intros (sc & Hin & _). apply in_map_iff. exists (best, sc). auto.
Qed.

Lemma combine_fst_snd {A B} (C : list (A * B)) :
  combine (map fst C) (map snd C) = C.
Proof.
  induction C as [ | [a b] C IH]; simpl; [reflexivity | ].
  rewrite IH. reflexivity.
Qed.

(** C6: the sweep of [SelectorBIC] never raises, leaves the selector as it
    is, and computes the score of every successful candidate by the
    formula.  A state count [n] is scored [bic] when the fit with [n]
    states on the word's data gives a model, its scoring on that data
    gives [logL], and [bic = -2 * logL + p * np.log(N)], with [N] the
    number of rows of [X], [d] the number of features and [p] the double
    nearest to [n*(n-1) + (n-1) + 2*d*n].  The two lists the sweep returns
    pair each state count it keeps with such a score; the state counts are
    in ascending order, within the range; and every state count of the
    range that is scored [bic] is kept, with [bic], whatever happened to
    the candidates before it. *)
Theorem SelectorBIC_score_formula s :
  let scored n bic :=
    exists m logL p,
      hmm_fit n (random_state s) (X s) (lengths s) = Some m
      /\ hmm_score m (X s) (lengths s) = Some logL
      /\ PyFloat.float_of_int
           (n * (n - 1) + (n - 1) + 2 * n_features * n) = Some p
      /\ bic = (-2 * logL + p * np_log (Z.of_nat (List.length (X s))))%float in
  exists all_n_components all_scores t,
    SelectorBIC_sweep s = (Some (all_n_components, all_scores), s, t)
    /\ Forall2 scored all_n_components all_scores
    /\ StronglySorted Z.lt all_n_components
    /\ Forall (fun n => (min_n_components s <= n <= max_n_components s)%Z)
         all_n_components
    /\ (forall n bic,
          (min_n_components s <= n <= max_n_components s)%Z ->
          scored n bic ->
          In (n, bic) (combine all_n_components all_scores)).
Proof.
  intros scored.
  assert (Hiff : forall n bic, bic_of s n = Some bic <-> scored n bic).
  { intros n bic. unfold scored, bic_of, logL_of, n_params. split.
    - destruct (hmm_fit n (random_state s) (X s) (lengths s)) as [m | ];
        [ | discriminate].
      destruct (hmm_score m (X s) (lengths s)) as [logL | ] eqn:El;
        [ | discriminate].
      destruct (PyFloat.float_of_int _) as [p | ]; [ | discriminate].
      intros H. injection H as <-. exists m, logL, p. auto.
    - intros (m & logL & p & -> & -> & -> & ->). reflexivity. }
  exists (map fst (BIC_candidates s)), (map snd (BIC_candidates s)),
    (flat_map (candidate_events s) (candidate_range s)).
  split; [apply SelectorBIC_sweep_run | ].
  split; [apply successes_Forall2; intros n bic; apply Hiff | ].
  split; [apply successes_sorted, range_sorted | ].
  split.
  - apply Forall_forall. intros n Hn. apply in_map_iff in Hn.
    destruct Hn as ([n' sc] & <- & Hin). apply candidates_In in Hin. tauto.
  - intros n bic Hn Hs. rewrite combine_fst_snd. apply candidates_In.
    split; [assumption | apply Hiff; assumption].
Qed.

(** C5: [SelectorBIC.select] never raises and returns the model refit on
    the word's data at a state count [best].  The candidates are the state
    counts of [min_n_components .. max_n_components] whose fit, scoring and
    BIC raise nothing.  With no candidate [best] is [n_constant].
    Otherwise [best] is a candidate, no candidate has a strictly lower BIC,
    and when no BIC is a NaN the BIC of [best] is at most that of every
    candidate.  With the BIC scores 120.5, 110.2 and 115.8 for 2, 3 and 4
    states, [best] is 3. *)
Theorem SelectorBIC_select_min_BIC s :
  let C := BIC_candidates s in
  (forall n bic, In (n, bic) C <->
     (min_n_components s <= n <= max_n_components s)%Z /\ bic_of s n = Some bic)
  /\ exists best t,
       SelectorBIC_select s
       = (Some (hmm_fit best (random_state s) (X s) (lengths s)), s, t)
       /\ (C = [] -> best = n_constant s)
       /\ (C <> [] ->
           exists bic, In (best, bic) C
             /\ (forall n' bic', In (n', bic') C -> (bic' <? bic)%float = false)
             /\ (Forall (fun c => is_nan (snd c) = false) C ->
                 forall n' bic', In (n', bic') C -> (bic <=? bic')%float = true))
       /\ (C = [(2%Z, 120.5); (3%Z, 110.2); (4%Z, 115.8)]%float -> best = 3%Z).
Proof.
  intros C. split; [intros n bic; apply candidates_In | ].
  destruct (SelectorBIC_select_run s) as (best & E & Hc). fold C in Hc.
  exists best. eexists. split; [exact E | ].
  assert (Hne : C <> [] -> first_best_of lower C best).
  { destruct Hc as [[H0 _] | [_ H]]; [congruence | auto]. }
  split; [ | split].
  - intros H0. destruct Hc as [[_ H] | [H _]]; [assumption | contradiction].
  - intros Hn. destruct (Hne Hn) as (bic & Hin & Hbest & _).
    exists bic. split; [assumption | split; [exact Hbest | ]].
    intros Hnan n' bic' Hin'.
    exact (@unbeaten_least _ lower C best bic NumPyFacts.scan_order_min
             Hin Hbest Hnan n' bic' Hin').
  - intros HC. destruct Hne as (bic & Hin & Hbest & _); [rewrite HC; discriminate | ].
    rewrite HC in Hin, Hbest.
    destruct Hin as [Hin | [Hin | [Hin | []]]]; injection Hin as <- <-.
    + specialize (Hbest 3%Z 110.2%float (or_intror (or_introl eq_refl))).
      vm_compute in Hbest. discriminate.
    + reflexivity.
    + specialize (Hbest 3%Z 110.2%float (or_intror (or_introl eq_refl))).
      vm_compute in Hbest. discriminate.
Qed.

Lemma DIC_scored_In s best sc :
  In (best, sc) (DIC_scored s) ->
  exists logL, In (best, logL) (DIC_candidates s) /\ sc = DIC_score s logL.
Proof.
  unfold DIC_scored. rewrite in_map_iff. intros ([n logL] & E & Hin).
  simpl in E. injection E as <- <-. eauto.
Qed.

Lemma DIC_candidates_In_scored s n logL :
  In (n, logL) (DIC_candidates s) -> In (n, DIC_score s logL) (DIC_scored s).
Proof.
  intros H. unfold DIC_scored. apply in_map_iff. exists (n, logL). auto.
Qed.

(** C2, amended: when at least three candidates fit and score,
    [SelectorDIC.select] returns the model refit on the word's data at a
    state count that maximizes
    [DIC(n) = logL(n) - (sum_logL - logL(n)) / M], with [sum_logL] the sum
    of the log-likelihoods of the successful candidates and [M] their
    number minus one: no successful candidate has a strictly higher DIC,
    and when no DIC is a NaN that of the selected one is at least that of
    every candidate. *)
Theorem SelectorDIC_select_max_DIC s :
  (3 <= List.length (DIC_candidates s))%nat ->
  exists best t,
    SelectorDIC_select s
    = (Some (hmm_fit best (random_state s) (X s) (lengths s)), s, t)
    /\ maximizes_DIC s best
    /\ (Forall (fun c => is_nan (snd c) = false) (DIC_scored s) ->
        exists logL, In (best, logL) (DIC_candidates s) /\
          forall n' logL', In (n', logL') (DIC_candidates s) ->
            (DIC_score s logL' <=? DIC_score s logL)%float = true).
Proof.
  intros Hlen. destruct (SelectorDIC_select_run s) as (best & E & Hc).
  exists best. eexists. split; [exact E | ].
  destruct Hc as [[_ H] | [[H _] | [H _]]]; [ | lia | lia].
  destruct H as (sc & Hin & Hbest & _).
  destruct (DIC_scored_In s _ _ Hin) as (logL & HinC & ->).
  split.
  - exists logL. split; [assumption | ].
    intros n' logL' Hin'. apply DIC_candidates_In_scored in Hin'.
    apply (Hbest _ _ Hin').
  - intros Hnan. exists logL. split; [assumption | ].
    intros n' logL' Hin'. apply DIC_candidates_In_scored in Hin'.
    exact (@unbeaten_least _ higher (DIC_scored s) best (DIC_score s logL)
             NumPyFacts.scan_order_max Hin Hbest Hnan n' _ Hin').
Qed.

(** C3: [SelectorDIC.select] never raises and returns the model refit on
    the word's data at a state count [best].  When exactly two candidates
    succeed, [best] is the first of them, whatever the two
    log-likelihoods; when one or none does, [best] is [n_constant]. *)
Theorem SelectorDIC_select_two_or_fewer s :
  exists best t,
    SelectorDIC_select s
    = (Some (hmm_fit best (random_state s) (X s) (lengths s)), s, t)
    /\ (forall c1 c2, DIC_candidates s = [c1; c2] -> best = fst c1)
    /\ ((List.length (DIC_candidates s) <= 1)%nat -> best = n_constant s).
Proof.
  destruct (SelectorDIC_select_run s) as (best & E & Hc).
  exists best. eexists. split; [exact E | ].
  unfold DIC_chosen in Hc. cbv zeta in Hc. split.
  - intros c1 c2 HC. rewrite HC in Hc. simpl in Hc.
    destruct Hc as [[H _] | [[_ H] | [H _]]]; [lia | congruence | lia].
  - intros Hlen.
    destruct Hc as [[H _] | [[H _] | [_ H]]]; [lia | lia | assumption].
Qed.

(** C4, amended: when exactly one candidate succeeds, as when none does,
    [SelectorDIC.select] falls back to the constant default: after one fit
    per state count of the range, it refits at [n_constant] on the word's
    data and returns what that fit gives. *)
Theorem SelectorDIC_select_single_success s :
  (List.length (DIC_candidates s) <= 1)%nat ->
  exists t,
    SelectorDIC_select s
    = (Some (hmm_fit (n_constant s) (random_state s) (X s) (lengths s)), s, t)
    /\ fit_events t
       = map (fun n => (n, random_state s, X s, lengths s))
           (candidate_range s ++ [n_constant s]).
Proof.
  intros Hlen. destruct (SelectorDIC_select_run s) as (best & E & Hc).
  assert (best = n_constant s) as ->.
  { destruct Hc as [[H _] | [[H _] | [_ H]]]; [lia | lia | assumption]. }
  eexists. split; [exact E | ].
  rewrite fit_events_app, sweep_fit_events, base_model_fit_events, map_app.
  reflexivity.
Qed.

(** The splits among the events of [SelectorCV]: none in a fold, one per
    candidate when there are more than two examples. *)
Lemma SelectorCV_fold_no_split n fold scores s :
  split_events (snd (SelectorCV_fold n fold scores s)) = [].
Proof.
  destruct fold as [tr te]. unfold SelectorCV_fold.
  unfold bind at 1, get_self. unfold bind at 1, lift.
  destruct (combine_sequences tr (sequences s)) as [[Xtr Ltr] | ];
    [ | reflexivity].
  unfold bind at 1, set_X_lengths. unfold bind at 1, get_self.
  unfold bind at 1, lift. cbn [sequences with_X_lengths].
  destruct (combine_sequences te (sequences s)) as [[Xte Lte] | ];
    [ | reflexivity].
  unfold bind at 1. rewrite base_model_run.
  cbn [X lengths random_state with_X_lengths].
  destruct (hmm_fit n (random_state s) Xtr Ltr) as [m | ];
    unfold score, bind, emit, lift, ret, raise; simpl snd.
  - destruct (hmm_score m Xte Lte); simpl snd;
      destruct (verbose s); reflexivity.
  - destruct (verbose s); reflexivity.
Qed.

Lemma SelectorCV_folds_no_split n fs : forall scores s,
  split_events (snd (for_each fs (SelectorCV_fold n) scores s)) = [].
Proof.
  induction fs as [ | f fs IH]; intros scores s; cbn [for_each].
  - reflexivity.
  - unfold bind. pose proof (SelectorCV_fold_no_split n f scores s) as H1.
    destruct (SelectorCV_fold n f scores s) as [[[acc | ] s1] t1]; simpl in H1.
    + pose proof (IH acc s1) as H2.
      destruct (for_each fs (SelectorCV_fold n) acc s1) as [[r2 s2] t2].
      simpl in *. rewrite split_events_app, H1, H2. reflexivity.
    + exact H1.
Qed.

Lemma SelectorCV_candidate_one_split n s :
  (2 < List.length (sequences s))%nat ->
  split_events (snd (SelectorCV_candidate n s)) = [List.length (sequences s)].
Proof.
  intros Hlen. unfold SelectorCV_candidate, bind at 1, get_self.
  replace (2 <? List.length (sequences s))%nat with true
    by (symmetry; apply Nat.ltb_lt; assumption).
  unfold bind at 1, split. unfold bind at 1, emit. unfold lift.
  destruct (KFold_split (List.length (sequences s))) as [folds | ];
    [ | reflexivity].
  unfold bind.
  pose proof (SelectorCV_folds_no_split n folds [] s) as H.
  destruct (for_each folds (SelectorCV_fold n) [] s) as [[[scores | ] s1] t1];
    simpl in *; rewrite ?app_nil_r, H; reflexivity.
Qed.

Lemma SelectorCV_loop_splits : forall l s ns scs,
  (2 < List.length (sequences s))%nat ->
  split_events
    (snd (for_each l
            (fun n_components '(all_n_components, all_scores) =>
               try_except
                 (bind (SelectorCV_candidate n_components)
                    (fun sc => ret (all_n_components ++ [n_components],
                                    all_scores ++ [sc])))
                 (ret (all_n_components, all_scores)))
            (ns, scs) s))
  = map (fun _ => List.length (sequences s)) l.
Proof.
  induction l as [ | n l IH]; intros s ns scs Hlen; cbn [for_each].
  - reflexivity.
  - destruct (SelectorCV_candidate_large s n (X s) (lengths s) Hlen)
      as (Xb & Lb & t & E).
    rewrite <- with_X_lengths_self in E.
    pose proof (@SelectorCV_candidate_one_split n s Hlen) as H1.
    rewrite E in H1. simpl in H1.
    assert (Hlen' : (2 < List.length (sequences (with_X_lengths s Xb Lb)))%nat)
      by exact Hlen.
    assert (Eb : try_except
                   (bind (SelectorCV_candidate n)
                      (fun sc => ret (ns ++ [n], scs ++ [sc])))
                   (ret (ns, scs)) s
                 = (Some (match cv_score_of s n with
                          | Some sc => (ns ++ [n], scs ++ [sc])
                          | None => (ns, scs)
                          end), with_X_lengths s Xb Lb, t)).
    { unfold try_except, bind. rewrite E.
      destruct (cv_score_of s n); unfold ret; rewrite ?app_nil_r; reflexivity. }
    unfold bind at 1. rewrite Eb. cbv beta iota.
    destruct (cv_score_of s n) as [sc | ].
    + pose proof (IH (with_X_lengths s Xb Lb) (ns ++ [n]) (scs ++ [sc]) Hlen')
        as H2.
      cbn [sequences with_X_lengths] in H2.
      match type of H2 with
      | split_events (snd ?u) = _ => destruct u as [[r2 s2] t2]
      end.
      cbn [snd] in *. rewrite split_events_app, H1, H2. reflexivity.
    + pose proof (IH (with_X_lengths s Xb Lb) ns scs Hlen') as H2.
      cbn [sequences with_X_lengths] in H2.
      match type of H2 with
      | split_events (snd ?u) = _ => destruct u as [[r2 s2] t2]
      end.
      cbn [snd] in *. rewrite split_events_app, H1, H2. reflexivity.
Qed.

Lemma SelectorCV_sweep_splits s :
  (2 < List.length (sequences s))%nat ->
  split_events (snd (SelectorCV_sweep s))
  = map (fun _ => List.length (sequences s)) (candidate_range s).
Proof.
  intros Hlen. unfold SelectorCV_sweep, bind at 1, get_self.
  pose proof (@SelectorCV_loop_splits (candidate_range s) s [] [] Hlen) as H.
  unfold candidate_range in *.
  match goal with
  | |- context [for_each ?l ?b ?a s] => destruct (for_each l b a s) as [[r2 s2] t2]
  end.
  simpl in *. exact H.
Qed.

(** C9, amended: a fit or a scoring that fails never makes [select] raise,
    for [SelectorBIC], [SelectorDIC] and [SelectorCV], and never ends the
    sweep.  A candidate is kept with score [sc] exactly when it is a state
    count of the range that gives the score [sc].  Each sweep goes through
    the whole range whatever fails on the way: [SelectorBIC] and
    [SelectorDIC] fit every state count of the range, in order;
    [SelectorCV] does so with two examples or fewer, and attempts one split
    per state count of the range with more.  Each sweep returns the
    successful candidates of the whole range, their state counts and their
    scores in two lists.  [select] then returns what the fit at the chosen
    state count gives, a failed fit being the value [None].  [SelectorBIC]
    and [SelectorCV] choose [n_constant] when no candidate succeeded and
    otherwise a successful candidate that none of them beats;
    [SelectorDIC] chooses a successful candidate when at least two succeed
    and [n_constant] when one or none does. *)
Theorem select_tolerates_failures s :
  let every_fit :=
    map (fun n => (n, random_state s, X s, lengths s)) (candidate_range s) in
  (forall n sc, In (n, sc) (BIC_candidates s) <->
     (min_n_components s <= n <= max_n_components s)%Z /\ bic_of s n = Some sc)
  /\ (forall n sc, In (n, sc) (DIC_candidates s) <->
     (min_n_components s <= n <= max_n_components s)%Z /\ logL_of s n = Some sc)
  /\ (forall n sc, In (n, sc) (CV_candidates s) <->
     (min_n_components s <= n <= max_n_components s)%Z /\ cv_score_of s n = Some sc)
  /\ (exists best t,
        SelectorBIC_sweep s
        = (Some (map fst (BIC_candidates s), map snd (BIC_candidates s)), s, t)
        /\ fit_events t = every_fit
        /\ SelectorBIC_select s
           = (Some (hmm_fit best (random_state s) (X s) (lengths s)), s,
              t ++ base_model_events s best)
        /\ chosen lower (BIC_candidates s) (n_constant s) best
        /\ (BIC_candidates s <> [] -> In best (map fst (BIC_candidates s)))
        /\ (BIC_candidates s = [] -> best = n_constant s))
  /\ (exists best t,
        SelectorDIC_sweep s
        = (Some (map fst (DIC_candidates s), map snd (DIC_candidates s),
                 DIC_sum s), s, t)
        /\ fit_events t = every_fit
        /\ SelectorDIC_select s
           = (Some (hmm_fit best (random_state s) (X s) (lengths s)), s,
              t ++ base_model_events s best)
        /\ DIC_chosen s best
        /\ ((2 <= List.length (DIC_candidates s))%nat ->
            In best (map fst (DIC_candidates s)))
        /\ ((List.length (DIC_candidates s) <= 1)%nat -> best = n_constant s))
  /\ (exists best X' lengths' t,
        SelectorCV_sweep s
        = (Some (map fst (CV_candidates s), map snd (CV_candidates s)),
           with_X_lengths s X' lengths', t)
        /\ ((List.length (sequences s) <= 2)%nat ->
            fit_events t = every_fit /\ (X', lengths') = (X s, lengths s))
        /\ ((2 < List.length (sequences s))%nat ->
            split_events t
            = map (fun _ => List.length (sequences s)) (candidate_range s))
        /\ SelectorCV_select s
           = (Some (hmm_fit best (random_state s) X' lengths'),
              with_X_lengths s X' lengths',
              t ++ base_model_events (with_X_lengths s X' lengths') best)
        /\ chosen higher (CV_candidates s) (n_constant s) best
        /\ (CV_candidates s <> [] -> In best (map fst (CV_candidates s)))
        /\ (CV_candidates s = [] -> best = n_constant s)).
Proof.
  intros every_fit.
  assert (Hchosen : forall better C best,
            chosen better C (n_constant s) best ->
            (C <> [] -> In best (map fst C)) /\ (C = [] -> best = n_constant s)).
  { intros better C best [[H0 Hb] | [Hn Hb]]; split; intros H;
      try contradiction; try assumption.
    apply (first_best_of_In Hb). }
  split; [intros; apply candidates_In | ].
  split; [intros; apply candidates_In | ].
  split; [intros; apply candidates_In | ].
  split; [ | split].
  - destruct (SelectorBIC_select_run s) as (best & E & Hc).
    exists best, (flat_map (candidate_events s) (candidate_range s)).
    split; [apply SelectorBIC_sweep_run | ].
    split; [apply sweep_fit_events | ].
    split; [exact E | ]. split; [exact Hc | apply (Hchosen _ _ _ Hc)].
  - destruct (SelectorDIC_select_run s) as (best & E & Hc).
    exists best, (flat_map (candidate_events s) (candidate_range s)).
    split; [apply SelectorDIC_sweep_run | ].
    split; [apply sweep_fit_events | ].
    split; [exact E | ]. split; [exact Hc | ]. split.
    + intros Hlen. destruct Hc as [[_ H] | [[_ H] | [H _]]]; [ | | lia].
      * rewrite <- DIC_scored_fst. apply (first_best_of_In H).
      * destruct (map fst (DIC_candidates s)) as [ | n1 ns]; [discriminate | ].
        simpl in H. injection H as ->. left. reflexivity.
    + intros Hlen.
      destruct Hc as [[H _] | [[H _] | [_ H]]]; [lia | lia | assumption].
  - destruct (Nat.le_gt_cases (List.length (sequences s)) 2) as [Hlen | Hlen].
    + destruct (SelectorCV_best_small s Hlen) as (best & E & Hc).
      exists best, (X s), (lengths s),
        (flat_map (candidate_events s) (candidate_range s)).
      rewrite <- with_X_lengths_self.
      split; [apply SelectorCV_sweep_small; assumption | ].
      split; [intros _; split; [apply sweep_fit_events | reflexivity] | ].
      split; [intros H; lia | ].
      split; [unfold SelectorCV_select, bind; rewrite E, base_model_run;
              reflexivity | ].
      split; [exact Hc | apply (Hchosen _ _ _ Hc)].
    + destruct (SelectorCV_sweep_run s) as (Xb & Lb & t & Esw).
      pose proof (@SelectorCV_sweep_splits s Hlen) as Hsp.
      rewrite Esw in Hsp. simpl in Hsp.
      destruct (@choice_run row model (fun x mp => (x <=? mp)%float) higher
                  (CV_candidates s) (with_X_lengths s Xb Lb)
                  NumPyFacts.scan_order_max)
        as (best & Hrun & Hc).
      { apply successes_sorted, range_sorted. }
      simpl n_constant in Hrun, Hc.
      exists best, Xb, Lb, t.
      split; [exact Esw | ].
      split; [intros H; lia | ].
      split; [intros _; exact Hsp | ].
      split.
      * unfold SelectorCV_select, SelectorCV_best_num_components.
        unfold bind at 1. unfold bind at 1. rewrite Esw.
        unfold bind at 1, get_self. unfold NumPy.argmax.
        simpl n_constant. rewrite Hrun, base_model_run, !app_nil_r.
        reflexivity.
      * split; [exact Hc | apply (Hchosen _ _ _ Hc)].
Qed.

(** C10: among the successful candidates that tie for the best score, the
    one of the smallest state count is selected.  For each of
    [SelectorBIC], [SelectorDIC] with three successes or more, and
    [SelectorCV], [select] returns the model refit at a state count [best]
    that is the first best candidate: no candidate has a strictly better
    score (lower BIC, higher DIC, higher cross-validated log-likelihood),
    and every candidate whose score equals that of [best] has a state count
    of [best] or more. *)
Theorem select_ties_smallest_state_count s :
  (exists best t,
     SelectorBIC_select s
     = (Some (hmm_fit best (random_state s) (X s) (lengths s)), s, t)
     /\ (BIC_candidates s <> [] -> first_best_of lower (BIC_candidates s) best))
  /\ (exists best t,
        SelectorDIC_select s
        = (Some (hmm_fit best (random_state s) (X s) (lengths s)), s, t)
        /\ ((3 <= List.length (DIC_candidates s))%nat ->
            first_best_of higher (DIC_scored s) best))
  /\ (exists best X' lengths' t,
        SelectorCV_select s
        = (Some (hmm_fit best (random_state s) X' lengths'),
           with_X_lengths s X' lengths', t)
        /\ (CV_candidates s <> [] -> first_best_of higher (CV_candidates s) best)).
Proof.
  split; [ | split].
  - destruct (SelectorBIC_select_run s) as (best & E & Hc).
    exists best. eexists. split; [exact E | ].
    intros Hn. destruct Hc as [[H _] | [_ H]]; [contradiction | assumption].
  - destruct (SelectorDIC_select_run s) as (best & E & Hc).
    exists best. eexists. split; [exact E | ].
    intros Hlen. destruct Hc as [[_ H] | [[H _] | [H _]]]; [assumption | lia | lia].
  - destruct (SelectorCV_best_run s) as (best & Xb & Lb & t & E & Hc).
    exists best, Xb, Lb. eexists. split.
    + unfold SelectorCV_select, bind. rewrite E, base_model_run. reflexivity.
    + intros Hn. destruct Hc as [[H _] | [_ H]]; [contradiction | assumption].
Qed.

(** C8: with two examples or fewer, [SelectorCV.select] splits nothing:
    each state count of the range is fit once on the word's data, each
    model so obtained is scored once on that same data, and the selected
    state count is refit on it.  The selector is left as it was, so that a
    second run selects the same state count and returns the same model. *)
Theorem SelectorCV_select_small s :
  (List.length (sequences s) <= 2)%nat ->
  exists best t_sweep,
    SelectorCV_best_num_components s = (Some best, s, t_sweep)
    /\ SelectorCV_select s
       = (Some (hmm_fit best (random_state s) (X s) (lengths s)), s,
          t_sweep ++ base_model_events s best)
    /\ split_events (t_sweep ++ base_model_events s best) = []
    /\ fit_events t_sweep
       = map (fun n => (n, random_state s, X s, lengths s)) (candidate_range s)
    /\ score_events t_sweep
       = flat_map (fun n =>
                     match hmm_fit n (random_state s) (X s) (lengths s) with
                     | Some m => [(m, X s, lengths s)]
                     | None => []
                     end) (candidate_range s)
    /\ fit_events (base_model_events s best)
       = [(best, random_state s, X s, lengths s)]
    /\ (forall r1 s1 t1,
          SelectorCV_select s = (r1, s1, t1) ->
          SelectorCV_best_num_components s1 = (Some best, s1, t_sweep)
          /\ SelectorCV_select s1 = (r1, s1, t1)).
Proof.
  intros Hlen. destruct (SelectorCV_best_small s Hlen) as (best & E & _).
  assert (Esel : SelectorCV_select s
                 = (Some (hmm_fit best (random_state s) (X s) (lengths s)), s,
                    flat_map (candidate_events s) (candidate_range s)
                    ++ base_model_events s best)).
  { unfold SelectorCV_select, bind. rewrite E, base_model_run. reflexivity. }
  exists best, (flat_map (candidate_events s) (candidate_range s)).
  split; [exact E | ]. split; [exact Esel | ].
  split; [rewrite split_events_app, sweep_split_events, base_model_split_events;
          reflexivity | ].
  split; [apply sweep_fit_events | ].
  split; [apply sweep_score_events | ].
  split; [apply base_model_fit_events | ].
  intros r1 s1 t1 H. rewrite Esel in H. injection H as <- <- <-.
  split; [exact E | exact Esel].
Qed.

End Claims.

(* ================================================================== *)
(** ** The selectors run on concrete words *)

Section Examples.

Import Toy.

Local Open Scope Z_scope.

(** C1: on a word of three examples, [SelectorCV.select] does not refit the
    selected state count on the word's data.  The three folds of [KFold()]
    leave examples 0 and 1 as the training part of the last one; the fold
    loop stores it in [self.X] and [self.lengths], nothing restores them,
    and the model returned for the selected state count 3 was fit on
    these three frames, not on the six of the word, on which
    [SelectorDIC.select] fits the model it returns. *)
Theorem SelectorCV_refit_on_last_fold :
  let w := word_three_examples in
  let r := SelectorCV_select (L := libs_three) w in
  (X w, lengths w) = ([1; 2; 3; 4; 5; 6]%nat, [2; 1; 3]%nat)
  /\ KFold 3 3 = Some [([1; 2], [0]); ([0; 2], [1]); ([0; 1], [2])]%nat
  /\ combine_sequences [0; 1]%nat (sequences w) = Some ([1; 2; 3]%nat, [2; 1]%nat)
  /\ result r = Some (Some (3, [1; 2; 3]%nat, [2; 1]%nat))
  /\ data_after r = ([1; 2; 3]%nat, [2; 1]%nat)
  /\ result (SelectorDIC_select (L := libs_three) w)
     = Some (Some (3, [1; 2; 3; 4; 5; 6]%nat, [2; 1; 3]%nat)).
Proof. vm_compute. repeat split. Qed.

(** C2 fails with two successes: the candidates of 2 and 3 states succeed
    with the log-likelihoods 1 and 2, so that DIC(2) = -1 and DIC(3) = 1;
    the model returned has 2 states. *)
Lemma SelectorDIC_two_successes_not_max :
  ~ ((2 <= List.length (DIC_candidates (L := libs_two) word_two))%nat ->
     exists m t,
       SelectorDIC_select (L := libs_two) word_two = (Some (Some m), word_two, t)
       /\ maximizes_DIC (L := libs_two) word_two (n_states m)).
Proof.
  intros H. destruct H as (m & t & E & logL & Hin & Hmax).
  { vm_compute. lia. }
  assert (Er : result (SelectorDIC_select (L := libs_two) word_two)
               = Some (Some (2, [0%nat], [1%nat]))) by (vm_compute; reflexivity).
  rewrite E in Er. injection Er as ->.
  assert (HC : DIC_candidates (L := libs_two) word_two
               = [(2, 1%float); (3, 2%float)]) by (vm_compute; reflexivity).
  rewrite HC in Hin, Hmax. simpl n_states in *.
  destruct Hin as [Hin | [Hin | []]]; [ | discriminate Hin].
  injection Hin as <-.
  specialize (Hmax 3 2%float (or_intror (or_introl eq_refl))).
  vm_compute in Hmax. discriminate.
Qed.

(** C4 fails: one candidate, of 2 states, succeeds; the model returned has
    the 3 states of the default. *)
Lemma SelectorDIC_single_success_not_used :
  ~ (forall n logL,
       DIC_candidates (L := libs_one_scored) john = [(n, logL)] ->
       exists m t,
         SelectorDIC_select (L := libs_one_scored) john = (Some (Some m), john, t)
         /\ n_states m = n).
Proof.
  intros H.
  assert (HC : DIC_candidates (L := libs_one_scored) john = [(2, (-10)%float)])
    by (vm_compute; reflexivity).
  destruct (H 2 (-10)%float HC) as (m & t & E & Hn).
  assert (Er : result (SelectorDIC_select (L := libs_one_scored) john)
               = Some (Some (3, [0%nat], [1%nat]))) by (vm_compute; reflexivity).
  rewrite E in Er. injection Er as ->. discriminate Hn.
Qed.

(** C9 fails for [SelectorDIC]: the candidate of 2 states succeeds, not all
    of the range failed, and yet the fallback is what is returned: the
    fit at the default 3 states, which fails. *)
Lemma SelectorDIC_fallback_despite_success :
  ~ (DIC_candidates (L := libs_one_fit) john <> [] ->
     exists m t,
       SelectorDIC_select (L := libs_one_fit) john = (Some (Some m), john, t)
       /\ In (n_states m) (map fst (DIC_candidates (L := libs_one_fit) john))).
Proof.
  intros H. destruct H as (m & t & E & _).
  { vm_compute. discriminate. }
  assert (Er : result (SelectorDIC_select (L := libs_one_fit) john) = Some None)
    by (vm_compute; reflexivity).
  rewrite E in Er. discriminate Er.
Qed.

(** C7 on the word of the scenario: one fit, at the default 3 states. *)
Lemma SelectorConstant_select_one_fit_witness :
  exists t,
    SelectorConstant_select (L := libs_john) john
    = (Some (Some (3, [0%nat], [1%nat])), john, t)
    /\ fit_events t = [(3, 14, [0%nat], [1%nat])].
Proof.
  destruct (SelectorConstant_select_one_fit (L := libs_john) john)
    as [(t & E & Hfit & _) _].
  exists t. split; [exact E | exact Hfit].
Defined.

(** C5 on the scenario of the specification: the BIC scores are 120.5,
    110.2 and 115.8 and the model returned has 3 states. *)
Lemma SelectorBIC_select_min_BIC_witness :
  BIC_candidates (L := libs_john) john
  = [(2, 120.5%float); (3, 110.2%float); (4, 115.8%float)]
  /\ exists t,
       SelectorBIC_select (L := libs_john) john
       = (Some (Some (3, [0%nat], [1%nat])), john, t).
Proof.
  split; [vm_compute; reflexivity | ].
  pose proof (SelectorBIC_select_min_BIC (L := libs_john) john) as H.
  cbv zeta in H. destruct H as (_ & best & t & E & _ & _ & Hex).
  assert (Hb : best = 3) by (apply Hex; vm_compute; reflexivity).
  rewrite Hb in E. exists t. exact E.
Defined.

(** C6 on the word of three examples, of six rows of one feature: the fit
    with 3 states fails; the candidates of 2 and 4 states, of 7 and 23
    parameters, are kept with the scores of the formula. *)
Lemma SelectorBIC_score_formula_witness :
  exists t,
    SelectorBIC_sweep (L := libs_six_rows) word_three_examples
    = (Some ([2; 4],
             [(-2 * -9 + 7 * ln6)%float; (-2 * -4 + 23 * ln6)%float]),
       word_three_examples, t).
Proof.
  pose proof (SelectorBIC_score_formula (L := libs_six_rows) word_three_examples)
    as H.
  cbv zeta in H. destruct H as (ns & scs & t & E & _).
  assert (Hr : result (SelectorBIC_sweep (L := libs_six_rows) word_three_examples)
               = Some ([2; 4],
                       [(-2 * -9 + 7 * ln6)%float; (-2 * -4 + 23 * ln6)%float]))
    by (vm_compute; reflexivity).
  rewrite E in Hr. unfold result in Hr. simpl in Hr. injection Hr as -> ->.
  exists t. exact E.
Defined.

(** C2, amended, with three successes. *)
Lemma SelectorDIC_select_max_DIC_witness :
  (3 <= List.length (DIC_candidates (L := libs_three) john))%nat
  /\ DIC_scored (L := libs_three) john
     = [(2, (-5)%float); (3, 2.5%float); (4, 2.5%float)]
  /\ exists best t,
       SelectorDIC_select (L := libs_three) john
       = (Some (hmm_fit (Libs := libs_three) best 14 [0%nat] [1%nat]), john, t)
       /\ maximizes_DIC (L := libs_three) john best.
Proof.
  assert (Hlen : (3 <= List.length (DIC_candidates (L := libs_three) john))%nat)
    by (vm_compute; lia).
  split; [exact Hlen | ]. split; [vm_compute; reflexivity | ].
  destruct (SelectorDIC_select_max_DIC (L := libs_three) john Hlen)
    as (best & t & E & Hmax & _).
  exists best, t. split; [exact E | exact Hmax].
Defined.

(** C3 with two successes: the first one, of 2 states, is returned. *)
Lemma SelectorDIC_select_two_or_fewer_witness :
  exists t,
    SelectorDIC_select (L := libs_two) word_two
    = (Some (Some (2, [0%nat], [1%nat])), word_two, t).
Proof.
  destruct (SelectorDIC_select_two_or_fewer (L := libs_two) word_two)
    as (best & t & E & H2 & _).
  assert (Hb : best = 2).
  { apply (H2 (2, 1%float) (3, 2%float)). vm_compute. reflexivity. }
  rewrite Hb in E. exists t. exact E.
Defined.

(** C4, amended, with one success: the default of 3 states is returned. *)
Lemma SelectorDIC_select_single_success_witness :
  (List.length (DIC_candidates (L := libs_one_scored) john) <= 1)%nat
  /\ exists t,
       SelectorDIC_select (L := libs_one_scored) john
       = (Some (Some (3, [0%nat], [1%nat])), john, t)
       /\ fit_events t
          = map (fun n => (n, 14, [0%nat], [1%nat])) [2; 3; 4; 3].
Proof.
  assert (Hlen : (List.length (DIC_candidates (L := libs_one_scored) john) <= 1)%nat)
    by (vm_compute; lia).
  split; [exact Hlen | ].
  exact (SelectorDIC_select_single_success (L := libs_one_scored) john Hlen).
Defined.

(** C9, amended, on a word of two examples where the fit with 3 states
    fails and the fits with 2 and 4 states score -9 and -4: the sweep of
    [SelectorCV] goes on after the failure, fits 2, 3 and 4 states, keeps 2
    and 4, and [select] returns the model of 4 states. *)
Lemma select_tolerates_failures_witness :
  exists t,
    SelectorCV_sweep (L := libs_six_rows) word_two_examples
    = (Some ([2; 4], [(-9)%float; (-4)%float]), word_two_examples, t)
    /\ fit_events t
       = map (fun n => (n, 14, [1; 2; 3]%nat, [2; 1]%nat)) [2; 3; 4]
    /\ SelectorCV_select (L := libs_six_rows) word_two_examples
       = (Some (Some (4, [1; 2; 3]%nat, [2; 1]%nat)), word_two_examples,
          t ++ [EvFit 4 14 [1; 2; 3]%nat [2; 1]%nat]).
Proof.
  destruct (select_tolerates_failures (L := libs_six_rows) word_two_examples)
    as (_ & _ & _ & _ & _
        & (best & X' & L' & t & Esw & Hsmall & _ & Esel & Hc & _)).
  destruct Hsmall as [Hfit Hxl]; [vm_compute; lia | ].
  injection Hxl as -> ->.
  assert (HC : CV_candidates (L := libs_six_rows) word_two_examples
               = [(2, (-9)%float); (4, (-4)%float)])
    by (vm_compute; reflexivity).
  rewrite HC in Esw, Hc.
  assert (Hb : best = 4).
  { destruct Hc as [[H _] | [_ (sc & Hin & Hbest & _)]]; [discriminate | ].
    destruct Hin as [Hin | [Hin | []]]; injection Hin as <- <-;
      [ | reflexivity].
    specialize (Hbest 4 (-4)%float (or_intror (or_introl eq_refl))).
    vm_compute in Hbest. discriminate. }
  subst best. exists t.
  split; [exact Esw | split; [exact Hfit | exact Esel]].
Defined.

(** C10 where the candidates of 3 and 4 states tie for the lowest BIC, 8:
    the model returned has 3 states. *)
Lemma select_ties_smallest_state_count_witness :
  BIC_candidates (L := libs_three) john
  = [(2, 18%float); (3, 8%float); (4, 8%float)]
  /\ exists t,
       SelectorBIC_select (L := libs_three) john
       = (Some (Some (3, [0%nat], [1%nat])), john, t).
Proof.
  assert (HC : BIC_candidates (L := libs_three) john
               = [(2, 18%float); (3, 8%float); (4, 8%float)])
    by (vm_compute; reflexivity).
  split; [exact HC | ].
  destruct (select_ties_smallest_state_count (L := libs_three) john)
    as ((best & t & E & H) & _).
  destruct H as (sc & Hin & Hbest & Htie).
  { rewrite HC. discriminate. }
  rewrite HC in Hin, Hbest, Htie.
  assert (H3 : In (3, 8%float) [(2, 18%float); (3, 8%float); (4, 8%float)])
    by (right; left; reflexivity).
  assert (Hb : best = 3).
  { destruct Hin as [Hin | [Hin | [Hin | []]]]; injection Hin as <- <-.
    - specialize (Hbest _ _ H3). vm_compute in Hbest. discriminate.
    - reflexivity.
    - specialize (Htie _ _ H3 eq_refl). lia. }
  rewrite Hb in E. exists t. exact E.
Defined.

(** C8 on a word of two examples: no split, one fit per state count on the
    three frames of the word, and the refit of the selected one. *)
Lemma SelectorCV_select_small_witness :
  (List.length (sequences word_two_examples) <= 2)%nat
  /\ exists best t,
       SelectorCV_select (L := libs_three) word_two_examples
       = (Some (hmm_fit (Libs := libs_three) best 14 [1; 2; 3]%nat [2; 1]%nat),
          word_two_examples, t)
       /\ split_events t = []
       /\ fit_events t
          = map (fun n => (n, 14, [1; 2; 3]%nat, [2; 1]%nat)) [2; 3; 4] ++
            [(best, 14, [1; 2; 3]%nat, [2; 1]%nat)].
Proof.
  assert (Hlen : (List.length (sequences word_two_examples) <= 2)%nat)
    by (vm_compute; lia).
  split; [exact Hlen | ].
  destruct (SelectorCV_select_small (L := libs_three) word_two_examples Hlen)
    as (best & t & _ & E & Hsplit & Hfit & _ & Hrefit & _).
  exists best, (t ++ base_model_events (L := libs_three) word_two_examples best).
  split; [exact E | ]. split; [exact Hsplit | ].
  rewrite fit_events_app, Hfit, Hrefit. reflexivity.
Defined.

End Examples.

(* ================================================================== *)
(** ** Further properties of the module *)

Section Further.

Context {row model : Type} {L : Libs row model}.

Implicit Types (s : selector row) (n : Z).

Lemma print_events_app (t1 t2 : list (event row model)) :
  print_events (t1 ++ t2) = print_events t1 ++ print_events t2.
Proof. apply flat_map_app. Qed.

Lemma range_empty start stop : (stop <= start)%Z -> range start stop = [].
Proof.
  intros H. unfold range. replace (Z.to_nat (stop - start)) with 0%nat by lia.
  reflexivity.
Qed.

(** X2: [base_model] never raises and leaves the selector as it is.  It
    makes one fit, at the state count asked for, on [self.X] and
    [self.lengths] with the seed [self.random_state], and nothing else but
    printing; it returns the model, or [None] when the fit fails.  It
    prints one line when [verbose] is set, which tells whether the fit
    succeeded, and none otherwise. *)
Theorem base_model_never_raises s n :
  exists t,
    base_model n s
    = (Some (hmm_fit n (random_state s) (X s) (lengths s)), s, t)
    /\ fit_events t = [(n, random_state s, X s, lengths s)]
    /\ score_events t = [] /\ split_events t = []
    /\ print_events t
       = if verbose s then
           [match hmm_fit n (random_state s) (X s) (lengths s) with
            | Some _ => ModelCreated (this_word s) n
            | None => FailureOn (this_word s) n
            end]
         else [].
Proof.
  exists (base_model_events s n). split; [apply base_model_run | ].
  rewrite base_model_fit_events, base_model_score_events, base_model_split_events.
  repeat split. unfold base_model_events. simpl.
  destruct (verbose s); reflexivity.
Qed.

Lemma successes_lengths {C} (f : Z -> option C) l :
  List.length (map fst (successes f l)) = List.length (map snd (successes f l)).
Proof. rewrite !length_map. reflexivity. Qed.

Lemma successes_bounds (f : Z -> option float) s :
  Forall (fun n => (min_n_components s <= n <= max_n_components s)%Z)
    (map fst (successes f (candidate_range s))).
Proof.
  apply Forall_forall. intros n Hn. apply in_map_iff in Hn.
  destruct Hn as ([n' sc] & <- & Hin). apply candidates_In in Hin. tauto.
Qed.

(** X3: the sweeps of the three selectors never raise, and the lists they
    build stay aligned: [all_n_components] is as long as the list of
    scores, so that the index of the best score is an index of
    [all_n_components]; its state counts are strictly increasing and lie
    between [min_n_components] and [max_n_components].  In [SelectorDIC],
    [sum_logL] is the sum of [all_logLs], added from zero in their order. *)
Theorem sweeps_aligned s :
  (exists ns scs t,
     SelectorBIC_sweep s = (Some (ns, scs), s, t)
     /\ List.length ns = List.length scs
     /\ StronglySorted Z.lt ns
     /\ Forall (fun n => (min_n_components s <= n <= max_n_components s)%Z) ns)
  /\ (exists ns ls sum t,
        SelectorDIC_sweep s = (Some (ns, ls, sum), s, t)
        /\ List.length ns = List.length ls
        /\ StronglySorted Z.lt ns
        /\ Forall (fun n => (min_n_components s <= n <= max_n_components s)%Z) ns
        /\ sum = fold_left PrimFloat.add ls 0%float)
  /\ (exists ns scs X' lengths' t,
        SelectorCV_sweep s = (Some (ns, scs), with_X_lengths s X' lengths', t)
        /\ List.length ns = List.length scs
        /\ StronglySorted Z.lt ns
        /\ Forall (fun n => (min_n_components s <= n <= max_n_components s)%Z) ns).
Proof.
  split; [ | split].
  - do 3 eexists. split; [apply SelectorBIC_sweep_run | ].
    split; [apply successes_lengths | ].
    split; [apply successes_sorted, range_sorted | apply successes_bounds].
  - do 4 eexists. split; [apply SelectorDIC_sweep_run | ].
    split; [apply successes_lengths | ].
    split; [apply successes_sorted, range_sorted | ].
    split; [apply successes_bounds | reflexivity].
  - destruct (SelectorCV_sweep_run s) as (Xb & Lb & t & E).
    do 5 eexists. split; [exact E | ].
    split; [apply successes_lengths | ].
    split; [apply successes_sorted, range_sorted | apply successes_bounds].
Qed.

(** X4: when [max_n_components] is below [min_n_components] there is no
    candidate: each of the three sweeping selectors makes one fit only, at
    [n_constant] on the word's data, returns what it gives, and leaves the
    selector as it is. *)
Theorem select_empty_range s :
  (max_n_components s < min_n_components s)%Z ->
  let fallback :=
    (Some (hmm_fit (n_constant s) (random_state s) (X s) (lengths s)), s,
     base_model_events s (n_constant s)) in
  SelectorBIC_select s = fallback
  /\ SelectorDIC_select s = fallback
  /\ SelectorCV_select s = fallback
  /\ fit_events (base_model_events s (n_constant s))
     = [(n_constant s, random_state s, X s, lengths s)].
Proof.
  intros Hlt fallback.
  assert (Hr : range (min_n_components s) (max_n_components s + 1) = [])
    by (apply range_empty; lia).
  repeat split.
  - unfold SelectorBIC_select, SelectorBIC_best_num_components, SelectorBIC_sweep,
      bind, get_self, shape. rewrite Hr. simpl. rewrite base_model_run. reflexivity.
  - unfold SelectorDIC_select, SelectorDIC_best_num_components, SelectorDIC_sweep,
      bind, get_self. rewrite Hr. simpl. rewrite base_model_run. reflexivity.
  - unfold SelectorCV_select, SelectorCV_best_num_components, SelectorCV_sweep,
      bind, get_self. rewrite Hr. simpl. rewrite base_model_run. reflexivity.
  - apply base_model_fit_events.
Qed.

(** X5: [SelectorBIC.select] and [SelectorDIC.select] make one fit per
    state count of the range, in ascending order, then one more at the
    selected state count, all on the word's data with the seed of the
    selector; they score each model of the sweep once, on that same data,
    and not the refit one; they split nothing and leave the selector as it
    is. *)
Theorem BIC_DIC_select_events s :
  let fits best :=
    map (fun n => (n, random_state s, X s, lengths s)) (candidate_range s ++ [best]) in
  let scorings :=
    flat_map (fun n =>
                match hmm_fit n (random_state s) (X s) (lengths s) with
                | Some m => [(m, X s, lengths s)]
                | None => []
                end) (candidate_range s) in
  (exists best t,
     SelectorBIC_select s
     = (Some (hmm_fit best (random_state s) (X s) (lengths s)), s, t)
     /\ fit_events t = fits best /\ score_events t = scorings
     /\ split_events t = [])
  /\ (exists best t,
        SelectorDIC_select s
        = (Some (hmm_fit best (random_state s) (X s) (lengths s)), s, t)
        /\ fit_events t = fits best /\ score_events t = scorings
        /\ split_events t = []).
Proof.
  intros fits scorings. unfold fits, scorings.
  assert (Hev : forall best,
            let t := flat_map (candidate_events s) (candidate_range s)
                     ++ base_model_events s best in
            fit_events t
            = map (fun n => (n, random_state s, X s, lengths s))
                (candidate_range s ++ [best])
            /\ score_events t
               = flat_map (fun n =>
                             match hmm_fit n (random_state s) (X s) (lengths s) with
                             | Some m => [(m, X s, lengths s)]
                             | None => []
                             end) (candidate_range s)
            /\ split_events t = []).
  { intros best t. unfold t.
    rewrite fit_events_app, score_events_app, split_events_app.
    rewrite sweep_fit_events, sweep_score_events, sweep_split_events.
    rewrite base_model_fit_events, base_model_score_events,
      base_model_split_events, map_app, app_nil_r. auto. }
  split.
  - destruct (SelectorBIC_select_run s) as (best & E & _).
    exists best. eexists. split; [exact E | apply Hev].
  - destruct (SelectorDIC_select_run s) as (best & E & _).
    exists best. eexists. split; [exact E | apply Hev].
Qed.

(** X6: the number of free parameters the BIC penalizes is
    [n*n + 2*d*n - 1], and with a non-negative number of features it grows
    strictly with the number of states, from one state on. *)
Theorem n_params_grows (d n n' : Z) :
  (0 <= d)%Z -> (1 <= n < n')%Z ->
  n_params n d = (n * n + 2 * d * n - 1)%Z
  /\ (n_params n d < n_params n' d)%Z.
Proof. intros Hd Hn. unfold n_params. split; nia. Qed.

(** *** A NaN among the scores *)

Lemma arg_scan_first_nan keep :
  (forall x mp, is_nan x = true -> keep x mp = false) ->
  forall l1 x l2 k mp ind,
    Forall (fun y => is_nan y = false) l1 -> is_nan x = true ->
    NumPy.arg_scan keep (l1 ++ x :: l2) k mp ind = (k + List.length l1)%nat.
Proof.
  intros Hk. induction l1 as [ | y l1 IH]; intros x l2 k mp ind Hl1 Hx; simpl.
  - rewrite (Hk x mp Hx), Hx. lia.
  - inversion Hl1 as [ | y' l1' Hy Hl1']; subst.
    destruct (keep y mp).
    + rewrite IH by assumption. lia.
    + rewrite Hy, IH by assumption. lia.
Qed.

Lemma arg_ext_first_nan keep l1 x l2 :
  (forall x mp, is_nan x = true -> keep x mp = false) ->
  Forall (fun y => is_nan y = false) l1 -> is_nan x = true ->
  NumPy.arg_ext keep (l1 ++ x :: l2) = Some (List.length l1).
Proof.
  intros Hk Hl1 Hx. destruct l1 as [ | y l1]; simpl.
  - rewrite Hx. reflexivity.
  - inversion Hl1 as [ | y' l1' Hy Hl1']; subst.
    rewrite Hy, (@arg_scan_first_nan keep Hk) by assumption. reflexivity.
Qed.

Lemma nan_not_kept_min x mp : is_nan x = true -> (mp <=? x)%float = false.
Proof.
  intros Hx. destruct (mp <=? x)%float eqn:E; [ | reflexivity].
  apply PyFloatFacts.leb_not_nan in E. destruct E as [_ E]. congruence.
Qed.

Lemma nan_not_kept_max x mp : is_nan x = true -> (x <=? mp)%float = false.
Proof.
  intros Hx. destruct (x <=? mp)%float eqn:E; [ | reflexivity].
  apply PyFloatFacts.leb_not_nan in E. destruct E as [E _]. congruence.
Qed.

Lemma sorted_before (C1 : list (Z * float)) c C2 :
  StronglySorted Z.lt (map fst (C1 ++ c :: C2)) ->
  forall c', In c' C1 -> (fst c' < fst c)%Z.
Proof.
  induction C1 as [ | a C1 IH]; simpl; intros Hs c' Hin; [destruct Hin | ].
  inversion Hs as [ | a' l' Hs' Hall]; subst.
  destruct Hin as [<- | Hin]; [ | apply IH; assumption].
  rewrite Forall_forall in Hall. apply Hall.
  rewrite map_app. apply in_or_app. right. left. reflexivity.
Qed.

(** The first candidate whose score is a NaN is the one [pick] returns,
    with either scan. *)
Lemma pick_first_nan keep (C : list (Z * float)) default n sc :
  (forall x mp, is_nan x = true -> keep x mp = false) ->
  StronglySorted Z.lt (map fst C) ->
  In (n, sc) C -> is_nan sc = true ->
  (forall n' sc', In (n', sc') C -> (n' < n)%Z -> is_nan sc' = false) ->
  pick (NumPy.arg_ext keep) C default = Some n.
Proof.
  intros Hk Hs Hin Hnan Hbefore.
  destruct (in_split _ _ Hin) as (C1 & C2 & ->).
  assert (H1 : Forall (fun y => is_nan y = false) (map snd C1)).
  { apply Forall_forall. intros y Hy. apply in_map_iff in Hy.
    destruct Hy as ([n' sc'] & <- & Hin'). simpl.
    apply (Hbefore n' sc').
    - apply in_or_app. left. assumption.
    - apply (@sorted_before C1 (n, sc) C2 Hs (n', sc') Hin'). }
  unfold pick. rewrite !map_app. simpl map.
  rewrite (@arg_ext_first_nan keep (map snd C1) sc (map snd C2) Hk H1 Hnan).
  destruct (map snd C1 ++ sc :: map snd C2) eqn:E.
  - destruct (map snd C1); discriminate.
  - rewrite length_map, <- (length_map fst C1), nth_error_app2 by lia.
    rewrite Nat.sub_diag. reflexivity.
Qed.

Lemma SelectorBIC_best_exact s :
  SelectorBIC_best_num_components s
  = (pick NumPy.argmin (BIC_candidates s) (n_constant s), s,
     flat_map (candidate_events s) (candidate_range s)).
Proof.
  unfold SelectorBIC_best_num_components, bind at 1.
  rewrite SelectorBIC_sweep_run. unfold pick, bind at 1, get_self.
  destruct (map snd (BIC_candidates s)) as [ | x l] eqn:E.
  - unfold ret. rewrite !app_nil_r. reflexivity.
  - unfold bind, lift. destruct (NumPy.argmin (x :: l)); rewrite !app_nil_r;
      reflexivity.
Qed.

Lemma SelectorCV_best_exact s :
  exists Xb Lb t,
    SelectorCV_best_num_components s
    = (pick NumPy.argmax (CV_candidates s) (n_constant s),
       with_X_lengths s Xb Lb, t).
Proof.
  destruct (SelectorCV_sweep_run s) as (Xb & Lb & t & E).
  exists Xb, Lb, t.
  unfold SelectorCV_best_num_components, bind at 1. rewrite E.
  unfold pick, bind at 1, get_self. simpl n_constant.
  destruct (map snd (CV_candidates s)) as [ | x l] eqn:El.
  - unfold ret. rewrite !app_nil_r. reflexivity.
  - unfold bind, lift. destruct (NumPy.argmax (x :: l)); rewrite !app_nil_r;
      reflexivity.
Qed.

(** X7: a score that is a NaN takes the selection.  When the BIC of a
    candidate is a NaN and that of no candidate of fewer states is,
    [SelectorBIC.select] returns the model refit at that candidate,
    whatever the other scores; and so does [SelectorCV.select] with the
    cross-validated score, on the data it has left in [self.X] and
    [self.lengths]. *)
Theorem nan_score_is_selected s :
  (forall n sc,
     In (n, sc) (BIC_candidates s) -> is_nan sc = true ->
     (forall n' sc', In (n', sc') (BIC_candidates s) -> (n' < n)%Z ->
                     is_nan sc' = false) ->
     exists t,
       SelectorBIC_select s
       = (Some (hmm_fit n (random_state s) (X s) (lengths s)), s, t))
  /\ (forall n sc,
        In (n, sc) (CV_candidates s) -> is_nan sc = true ->
        (forall n' sc', In (n', sc') (CV_candidates s) -> (n' < n)%Z ->
                        is_nan sc' = false) ->
        exists X' lengths' t,
          SelectorCV_select s
          = (Some (hmm_fit n (random_state s) X' lengths'),
             with_X_lengths s X' lengths', t)).
Proof.
  split; intros n sc Hin Hnan Hbefore.
  - eexists. unfold SelectorBIC_select, bind. rewrite SelectorBIC_best_exact.
    unfold NumPy.argmin.
    rewrite (@pick_first_nan _ (BIC_candidates s) (n_constant s) n sc
               nan_not_kept_min) by
      (try assumption; apply successes_sorted, range_sorted).
    rewrite base_model_run. reflexivity.
  - destruct (SelectorCV_best_exact s) as (Xb & Lb & t & E).
    exists Xb, Lb. eexists. unfold SelectorCV_select, bind. rewrite E.
    unfold NumPy.argmax.
    rewrite (@pick_first_nan _ (CV_candidates s) (n_constant s) n sc
               nan_not_kept_max) by
      (try assumption; apply successes_sorted, range_sorted).
    rewrite base_model_run. reflexivity.
Qed.

(** *** [SelectorCV] when the split fails *)

Lemma fold_left_const {A B} (l : list B) (a : A) :
  fold_left (fun a _ => a) l a = a.
Proof. induction l; simpl; auto. Qed.

Lemma SelectorCV_split_failure_run s :
  (2 < List.length (sequences s))%nat ->
  KFold_split (List.length (sequences s)) = None ->
  SelectorCV_select s
  = (Some (hmm_fit (n_constant s) (random_state s) (X s) (lengths s)), s,
     flat_map (fun _ : Z => [EvSplit (model := model) (List.length (sequences s))])
       (candidate_range s)
     ++ base_model_events s (n_constant s)).
Proof.
  intros Hlen Hsplit.
  assert (Hcand : forall n, SelectorCV_candidate n s
                            = (None, s, [EvSplit (List.length (sequences s))])).
  { intros n. unfold SelectorCV_candidate, bind at 1, get_self.
    replace (2 <? List.length (sequences s))%nat with true
      by (symmetry; apply Nat.ltb_lt; assumption).
    unfold bind, split, emit, lift. rewrite Hsplit. reflexivity. }
  assert (Hsweep : SelectorCV_sweep s
                   = (Some ([], []), s,
                      flat_map (fun _ : Z => [EvSplit (model := model)
                                                (List.length (sequences s))])
                        (candidate_range s))).
  { unfold SelectorCV_sweep, bind at 1, get_self.
    rewrite for_each_preserving with
      (step := fun (_ : Z) (a : list Z * list float) => a)
      (ev := fun _ : Z => [EvSplit (model := model) (List.length (sequences s))]).
    - rewrite fold_left_const. reflexivity.
    - intros n [ns scs]. unfold try_except, bind. rewrite Hcand.
      unfold ret. rewrite app_nil_r. reflexivity. }
  unfold SelectorCV_select, SelectorCV_best_num_components, bind.
  rewrite Hsweep. unfold get_self, ret. rewrite base_model_run.
  rewrite !app_nil_r. reflexivity.
Qed.

(** X8: with more than two examples, when [KFold().split] raises on them
    (more folds than examples), every candidate is dropped after the
    attempt to split and before any fit: [SelectorCV.select] makes one
    fit only, at [n_constant] on the word's data, returns what it gives
    and leaves the selector as it is. *)
Theorem SelectorCV_split_failure s :
  (2 < List.length (sequences s))%nat ->
  KFold_split (List.length (sequences s)) = None ->
  exists t,
    SelectorCV_select s
    = (Some (hmm_fit (n_constant s) (random_state s) (X s) (lengths s)), s, t)
    /\ fit_events t = [(n_constant s, random_state s, X s, lengths s)]
    /\ score_events t = []
    /\ split_events t
       = map (fun _ => List.length (sequences s)) (candidate_range s).
Proof.
  intros Hlen Hsplit. eexists.
  split; [apply SelectorCV_split_failure_run; assumption | ].
  rewrite fit_events_app, score_events_app, split_events_app.
  rewrite base_model_fit_events, base_model_score_events,
    base_model_split_events, app_nil_r.
  generalize (candidate_range s) as l.
  induction l as [ | n l IH]; simpl; [auto | ].
  destruct IH as (IH1 & IH2 & IH3). simpl in IH1.
  repeat split.
  - exact IH1.
  - exact IH2.
  - f_equal. exact IH3.
Qed.

End Further.

(* ================================================================== *)
(** ** The folds of [SelectorCV] *)

Section CVFolds.

Context {row model : Type} {L : Libs row model}.

Variable s : selector row.
Variable folds : list (list nat * list nat).

Implicit Types (n : Z).

Lemma cv_uniform_fold n fold scores :
  In fold folds -> In n (candidate_range s) ->
  cv_uniform s folds
    (fun o r =>
       (combine_sequences (fst fold) (sequences s) <> None -> o <> None)
       /\ r = match cv_fold_score s n fold with
              | Some sc => Some (scores ++ [sc])
              | None => None
              end)
    (SelectorCV_fold n fold scores).
Proof.
  intros Hfold Hn. destruct fold as [tr te]. unfold cv_uniform, cv_fold_score.
  simpl fst. simpl snd.
  destruct (combine_sequences tr (sequences s)) as [[Xtr Ltr] | ] eqn:Etr.
  - destruct (combine_sequences te (sequences s)) as [[Xte Lte] | ] eqn:Ete.
    + exists (Some (Xtr, Ltr)).
      exists (match hmm_fit n (random_state s) Xtr Ltr with
              | Some m =>
                  match hmm_score m Xte Lte with
                  | Some sc => Some (scores ++ [sc])
                  | None => None
                  end
              | None => None
              end).
      exists (base_model_events (with_X_lengths s Xtr Ltr) n ++
              match hmm_fit n (random_state s) Xtr Ltr with
              | Some m => [EvScore m Xte Lte]
              | None => []
              end).
      split; [ | split; [ | split; [ | split]]].
      * intros Xa La. unfold SelectorCV_fold.
        unfold bind at 1, get_self. unfold bind at 1, lift.
        cbn [sequences with_X_lengths]. rewrite Etr.
        unfold bind at 1, set_X_lengths. unfold bind at 1, get_self.
        unfold bind at 1, lift. cbn [sequences with_X_lengths]. rewrite Ete.
        unfold bind at 1. rewrite base_model_run. simpl.
        destruct (hmm_fit n (random_state s) Xtr Ltr) as [m | ];
          unfold bind, emit, lift, ret, raise; simpl.
        -- destruct (hmm_score m Xte Lte); reflexivity.
        -- rewrite app_nil_r. reflexivity.
      * intros d Hd. injection Hd as <-. exists (tr, te). auto.
      * apply Forall_app. split.
        -- unfold base_model_events. simpl. constructor.
           ++ simpl. split; [reflexivity | split; [assumption | ]].
              exists (tr, te). auto.
           ++ destruct (verbose s); repeat constructor.
        -- destruct (hmm_fit n (random_state s) Xtr Ltr) as [m | ] eqn:Efit;
             repeat constructor.
           exists (tr, te), n, Xtr, Ltr. auto.
      * discriminate.
      * destruct (hmm_fit n (random_state s) Xtr Ltr); reflexivity.
    + exists (Some (Xtr, Ltr)), None, []. split; [ | split; [ | split; [ | split]]].
      * intros Xa La. unfold SelectorCV_fold.
        unfold bind at 1, get_self. unfold bind at 1, lift.
        cbn [sequences with_X_lengths]. rewrite Etr.
        unfold bind at 1, set_X_lengths. unfold bind at 1, get_self.
        unfold bind at 1, lift. cbn [sequences with_X_lengths]. rewrite Ete.
        reflexivity.
      * intros d Hd. injection Hd as <-. exists (tr, te). auto.
      * constructor.
      * discriminate.
      * reflexivity.
  - exists None, None, []. split; [ | split; [ | split; [ | split]]].
    + intros Xa La. unfold SelectorCV_fold.
      unfold bind at 1, get_self. unfold bind at 1, lift.
      cbn [sequences with_X_lengths]. rewrite Etr. reflexivity.
    + discriminate.
    + constructor.
    + intros H. contradiction.
    + reflexivity.
Qed.

Lemma stored_merge (o1 o2 : option (list row * list nat)) Xa La :
  stored o2 (fst (stored o1 Xa La)) (snd (stored o1 Xa La))
  = stored (match o2 with Some _ => o2 | None => o1 end) Xa La.
Proof. destruct o2 as [d2 | ], o1 as [[X1 L1] | ]; reflexivity. Qed.

Lemma cv_uniform_folds n :
  In n (candidate_range s) ->
  forall fs, incl fs folds -> forall scores,
    cv_uniform s folds
      (fun o r =>
         (forall f0 rest, fs = f0 :: rest ->
            combine_sequences (fst f0) (sequences s) <> None -> o <> None)
         /\ r = match all_some (map (cv_fold_score s n) fs) with
                | Some scs => Some (scores ++ scs)
                | None => None
                end)
      (for_each fs (SelectorCV_fold n) scores).
Proof.
  intros Hn. induction fs as [ | f fs IH]; intros Hincl scores.
  - exists None, (Some scores), []. split; [ | split; [ | split; [ | split]]].
    + intros Xa La. reflexivity.
    + discriminate.
    + constructor.
    + discriminate.
    + simpl. rewrite app_nil_r. reflexivity.
  - assert (Hf : In f folds) by (apply Hincl; left; reflexivity).
    assert (Hfs : incl fs folds) by (intros x Hx; apply Hincl; right; assumption).
    destruct (cv_uniform_fold n f scores Hf Hn)
      as (o1 & r1 & t1 & E1 & D1 & T1 & Q1 & ->).
    simpl map. simpl all_some.
    destruct (cv_fold_score s n f) as [sc | ].
    + destruct (IH Hfs (scores ++ [sc])) as (o2 & r2 & t2 & E2 & D2 & T2 & Q2 & ->).
      exists (match o2 with Some _ => o2 | None => o1 end).
      exists (match all_some (map (cv_fold_score s n) fs) with
              | Some scs => Some ((scores ++ [sc]) ++ scs)
              | None => None
              end).
      exists (t1 ++ t2). split; [ | split; [ | split; [ | split]]].
      * intros Xa La. simpl for_each. unfold bind. rewrite E1, E2, stored_merge.
        reflexivity.
      * intros d Hd. destruct o2; [apply D2 | apply D1]; assumption.
      * apply Forall_app. auto.
      * intros f0 rest Heq Hc. injection Heq as <- <-.
        destruct o2; [discriminate | auto].
      * destruct (all_some (map (cv_fold_score s n) fs)); [ | reflexivity].
        rewrite <- app_assoc. reflexivity.
    + exists o1, None, t1. split; [ | split; [ | split; [ | split]]].
      * intros Xa La. simpl for_each. unfold bind. rewrite E1. reflexivity.
      * exact D1.
      * exact T1.
      * intros f0 rest Heq Hc. injection Heq as <- <-. auto.
      * reflexivity.
Qed.

Hypothesis Hlen : (2 < List.length (sequences s))%nat.
Hypothesis Hsplit : KFold_split (List.length (sequences s)) = Some folds.

Lemma cv_uniform_candidate n :
  In n (candidate_range s) ->
  cv_uniform s folds
    (fun o r => (first_fold_trains s folds -> o <> None) /\ r = cv_score_of s n)
    (SelectorCV_candidate n).
Proof.
  intros Hn.
  destruct (@cv_uniform_folds n Hn folds (incl_refl folds) [])
    as (o & r & t & E & D & T & Q & ->).
  exists o.
  exists (match all_some (map (cv_fold_score s n) folds) with
          | Some scs => Some (np_mean scs)
          | None => None
          end).
  exists (EvSplit (List.length (sequences s)) :: t).
  split; [ | split; [ | split; [ | split]]].
  - intros Xa La. unfold SelectorCV_candidate, bind at 1, get_self.
    cbn [sequences with_X_lengths].
    replace (2 <? List.length (sequences s))%nat with true
      by (symmetry; apply Nat.ltb_lt; assumption).
    unfold bind at 1, split. unfold bind, emit, lift, ret. simpl.
    rewrite Hsplit, E.
    destruct (all_some (map (cv_fold_score s n) folds)); simpl;
      rewrite ?app_nil_r; reflexivity.
  - exact D.
  - constructor; [reflexivity | exact T].
  - intros (f0 & rest & Hf & Hc). apply (Q f0 rest Hf Hc).
  - unfold cv_score_of.
    replace (2 <? List.length (sequences s))%nat with true
      by (symmetry; apply Nat.ltb_lt; assumption).
    rewrite Hsplit. reflexivity.
Qed.

Lemma cv_body_run n ns scs o1 sc1 t1 :
  (forall Xa La,
     SelectorCV_candidate n (with_X_lengths s Xa La)
     = (sc1, with_X_lengths s (fst (stored o1 Xa La)) (snd (stored o1 Xa La)), t1)) ->
  forall Xa La,
    try_except
      (bind (SelectorCV_candidate n)
         (fun sc => ret (ns ++ [n], scs ++ [sc])))
      (ret (ns, scs)) (with_X_lengths s Xa La)
    = (Some (match sc1 with
             | Some sc => (ns ++ [n], scs ++ [sc])
             | None => (ns, scs)
             end),
       with_X_lengths s (fst (stored o1 Xa La)) (snd (stored o1 Xa La)), t1).
Proof.
  intros E1 Xa La. unfold try_except, bind. rewrite E1.
  destruct sc1; unfold ret; rewrite ?app_nil_r; reflexivity.
Qed.

Lemma cv_uniform_loop : forall l, incl l (candidate_range s) ->
  forall ns scs,
    cv_uniform s folds
      (fun o r =>
         (l <> [] -> first_fold_trains s folds -> o <> None)
         /\ r = Some (fold_left
                        (fun (a : list Z * list float) n =>
                           let '(ns, scs) := a in
                           match cv_score_of s n with
                           | Some sc => (ns ++ [n], scs ++ [sc])
                           | None => (ns, scs)
                           end) l (ns, scs)))
      (for_each l
         (fun n_components '(all_n_components, all_scores) =>
            try_except
              (bind (SelectorCV_candidate n_components)
                 (fun sc => ret (all_n_components ++ [n_components],
                                 all_scores ++ [sc])))
              (ret (all_n_components, all_scores)))
         (ns, scs)).
Proof.
  induction l as [ | n l IH]; intros Hincl ns scs.
  - exists None, (Some (ns, scs)), []. split; [ | split; [ | split; [ | split]]].
    + intros Xa La. reflexivity.
    + discriminate.
    + constructor.
    + intros H. contradiction.
    + reflexivity.
  - assert (Hn : In n (candidate_range s)) by (apply Hincl; left; reflexivity).
    assert (Hl : incl l (candidate_range s))
      by (intros x Hx; apply Hincl; right; assumption).
    destruct (@cv_uniform_candidate n Hn) as (o1 & r1 & t1 & E1 & D1 & T1 & Q1 & ->).
    pose proof (@cv_body_run n ns scs o1 _ t1 E1) as Eb.
    cbn [fold_left].
    destruct (cv_score_of s n) as [sc | ].
    + destruct (IH Hl (ns ++ [n]) (scs ++ [sc]))
        as (o2 & r2 & t2 & E2 & D2 & T2 & Q2 & ->).
      exists (match o2 with Some _ => o2 | None => o1 end). eexists.
      exists (t1 ++ t2). split; [ | split; [ | split; [ | split]]].
      * intros Xa La. cbn [for_each]. unfold bind at 1.
        rewrite Eb, E2, stored_merge. reflexivity.
      * intros d Hd. destruct o2; [apply D2 | apply D1]; assumption.
      * apply Forall_app. auto.
      * intros _ Hft. destruct o2; [discriminate | auto].
      * reflexivity.
    + destruct (IH Hl ns scs) as (o2 & r2 & t2 & E2 & D2 & T2 & Q2 & ->).
      exists (match o2 with Some _ => o2 | None => o1 end). eexists.
      exists (t1 ++ t2). split; [ | split; [ | split; [ | split]]].
      * intros Xa La. cbn [for_each]. unfold bind at 1.
        rewrite Eb, E2, stored_merge. reflexivity.
      * intros d Hd. destruct o2; [apply D2 | apply D1]; assumption.
      * apply Forall_app. auto.
      * intros _ Hft. destruct o2; [discriminate | auto].
      * reflexivity.
Qed.

Lemma cv_uniform_sweep :
  cv_uniform s folds
    (fun o r =>
       (candidate_range s <> [] -> first_fold_trains s folds -> o <> None)
       /\ r = Some (map fst (CV_candidates s), map snd (CV_candidates s)))
    SelectorCV_sweep.
Proof.
  destruct (@cv_uniform_loop (candidate_range s) (incl_refl (candidate_range s)) [] [])
    as (o & r & t & E & D & T & Q & ->).
  exists o. eexists. exists t. split; [ | split; [ | split; [ | split]]].
  - intros Xa La. unfold SelectorCV_sweep, bind at 1, get_self.
    cbn [min_n_components max_n_components with_X_lengths].
    fold (candidate_range s). rewrite E. rewrite app_nil_l. reflexivity.
  - exact D.
  - exact T.
  - exact Q.
  - rewrite fold_successes. reflexivity.
Qed.

Lemma pick_some keep better (C : list (Z * float)) default :
  NumPy.scan_order keep better ->
  StronglySorted Z.lt (map fst C) ->
  exists best, pick (NumPy.arg_ext keep) C default = Some best.
Proof.
  intros Hord Hs. unfold pick. destruct C as [ | c C]; simpl map.
  - eauto.
  - destruct (NumPyFacts.arg_ext_nonempty keep (snd c) (map snd C)) as [i Hi].
    destruct (@pick_first_best keep better (c :: C) i Hord Hs Hi)
      as (best & Hbest & _).
    exists best. simpl map in *. rewrite Hi. exact Hbest.
Qed.

(** The whole of [select]: uniform in what [self.X] and [self.lengths]
    hold at the start. *)
Lemma SelectorCV_select_uniform :
  exists o best t,
    (forall Xa La,
       let d := stored o Xa La in
       SelectorCV_select (with_X_lengths s Xa La)
       = (Some (hmm_fit best (random_state s) (fst d) (snd d)),
          with_X_lengths s (fst d) (snd d),
          t ++ base_model_events (with_X_lengths s (fst d) (snd d)) best))
    /\ (forall d, o = Some d -> train_of_fold s folds d)
    /\ Forall (cv_event_ok s folds) t
    /\ (candidate_range s <> [] -> first_fold_trains s folds -> o <> None).
Proof.
  destruct cv_uniform_sweep as (o & r & t & E & D & T & Q & ->).
  destruct (@pick_some _ higher (CV_candidates s) (n_constant s)
              NumPyFacts.scan_order_max) as [best Hbest].
  { apply successes_sorted, range_sorted. }
  exists o, best, t. split; [ | auto].
  intros Xa La d. unfold SelectorCV_select, SelectorCV_best_num_components.
  unfold bind at 1. unfold bind at 1. rewrite E.
  unfold bind at 1, get_self. cbn [n_constant with_X_lengths].
  assert (Hpick :
    forall s' : selector row,
      match map snd (CV_candidates s) with
      | [] => ret (n_constant s)
      | _ :: _ =>
          bind (lift (NumPy.argmax (map snd (CV_candidates s))))
            (fun i => lift (nth_error (map fst (CV_candidates s)) i))
      end s' = (Some best, s', @nil (event row model))).
  { intros s'. unfold pick, NumPy.argmax in *.
    destruct (map snd (CV_candidates s)) as [ | x l].
    - injection Hbest as <-. reflexivity.
    - unfold bind, lift.
      destruct (NumPy.arg_ext (fun x0 mp : float => (x0 <=? mp)%float) (x :: l));
        [ | discriminate].
      rewrite Hbest. reflexivity. }
  rewrite Hpick. rewrite base_model_run. rewrite !app_nil_r. reflexivity.
Qed.

End CVFolds.

Section CVProperties.

Context {row model : Type} {L : Libs row model}.

Implicit Types (s : selector row).

Lemma stored_idem (o : option (list row * list nat)) Xa La :
  stored o (fst (stored o Xa La)) (snd (stored o Xa La)) = stored o Xa La.
Proof. destruct o as [[X1 L1] | ]; reflexivity. Qed.

(** X9: cross-validation proper.  With more than two examples and the
    folds [KFold().split] gives on them, every fit [SelectorCV.select]
    makes while sweeping is on the training part of a fold, at a state
    count of the range and with the seed of the selector, and every
    scoring is of such a model on the held-out part of the same fold.  The
    selector keeps all its attributes but [X] and [lengths]; these hold
    afterwards the data the returned model was fit on: the word's data, or
    the training part of a fold, and the latter as soon as the range is
    not empty and the examples of the first fold's training part exist. *)
Theorem SelectorCV_select_on_folds s folds :
  (2 < List.length (sequences s))%nat ->
  KFold_split (List.length (sequences s)) = Some folds ->
  exists best d t,
    SelectorCV_select s
    = (Some (hmm_fit best (random_state s) (fst d) (snd d)),
       with_X_lengths s (fst d) (snd d),
       t ++ base_model_events (with_X_lengths s (fst d) (snd d)) best)
    /\ Forall (cv_event_ok s folds) t
    /\ (d = (X s, lengths s) \/ train_of_fold s folds d)
    /\ (candidate_range s <> [] -> first_fold_trains s folds ->
        train_of_fold s folds d).
Proof.
  intros Hlen Hsplit.
  destruct (@SelectorCV_select_uniform _ _ _ s folds Hlen Hsplit)
    as (o & best & t & E & D & T & Q).
  specialize (E (X s) (lengths s)). cbv zeta in E.
  rewrite <- with_X_lengths_self in E.
  exists best, (stored o (X s) (lengths s)), t.
  split; [exact E | ]. split; [exact T | ]. split.
  - destruct o as [d | ]; [right; apply D; reflexivity | left; reflexivity].
  - intros Hr Hf. destruct o as [d | ]; [apply D; reflexivity | ].
    exfalso. apply (Q Hr Hf). reflexivity.
Qed.

(** X10: a second [select] on the same [SelectorCV] object does what the
    first did: from the selector the first call leaves, the second makes the
    same calls, returns the same model and leaves the selector as it found
    it, whatever the number of examples and whatever fails. *)
Theorem SelectorCV_select_idempotent s r1 s1 t1 :
  SelectorCV_select s = (r1, s1, t1) ->
  SelectorCV_select s1 = (r1, s1, t1).
Proof.
  intros H.
  destruct (Nat.le_gt_cases (List.length (sequences s)) 2) as [Hlen | Hlen].
  - destruct (SelectorCV_best_small s Hlen) as (best & E & _).
    assert (Esel : SelectorCV_select s
                   = (Some (hmm_fit best (random_state s) (X s) (lengths s)), s,
                      flat_map (candidate_events s) (candidate_range s)
                      ++ base_model_events s best)).
    { unfold SelectorCV_select, bind. rewrite E, base_model_run. reflexivity. }
    rewrite Esel in H. injection H as <- <- <-. exact Esel.
  - destruct (KFold_split (List.length (sequences s))) as [folds | ] eqn:Hsplit.
    + destruct (@SelectorCV_select_uniform _ _ _ s folds Hlen Hsplit)
        as (o & best & t & E & _).
      pose proof (E (X s) (lengths s)) as E0. cbv zeta in E0.
      rewrite <- with_X_lengths_self in E0.
      rewrite E0 in H. injection H as <- <- <-.
      pose proof (E (fst (stored o (X s) (lengths s)))
                    (snd (stored o (X s) (lengths s)))) as E1.
      cbv zeta in E1. rewrite stored_idem in E1. exact E1.
    + pose proof (@SelectorCV_split_failure_run _ _ _ s Hlen Hsplit) as Esel.
      rewrite Esel in H. injection H as <- <- <-. exact Esel.
Qed.

End CVProperties.

(* ================================================================== *)
(** ** These properties on concrete words *)

Section FurtherExamples.

Import Toy.

Local Open Scope Z_scope.

(** X4 on a word with the range 5 .. 2. *)
Lemma select_empty_range_witness :
  (max_n_components word_empty_range < min_n_components word_empty_range)
  /\ result (SelectorBIC_select (L := libs_john) word_empty_range)
     = Some (Some (3, [0%nat], [1%nat]))
  /\ fit_events (snd (SelectorCV_select (L := libs_john) word_empty_range))
     = [(3, 14, [0%nat], [1%nat])].
Proof.
  assert (Hlt : max_n_components word_empty_range
                < min_n_components word_empty_range) by (vm_compute; reflexivity).
  split; [exact Hlt | ].
  destruct (@select_empty_range _ _ libs_john word_empty_range Hlt)
    as (Ebic & _ & Ecv & Hfit).
  rewrite Ebic, Ecv. split; [reflexivity | exact Hfit].
Defined.

(** X6 with one feature: 4 parameters for 2 states, 8 for 3. *)
Lemma n_params_grows_witness :
  n_params 2 1 = 2 * 2 + 2 * 1 * 2 - 1 /\ n_params 2 1 < n_params 3 1.
Proof. apply (@n_params_grows 1 2 3); lia. Defined.

(** X7 on the word of three examples: its six rows make every BIC a NaN
    with [ln1], and the first candidate, of 2 states, is returned. *)
Lemma nan_score_is_selected_witness :
  exists t,
    SelectorBIC_select (L := libs_three) word_three_examples
    = (Some (Some (2, [1; 2; 3; 4; 5; 6]%nat, [2; 1; 3]%nat)),
       word_three_examples, t).
Proof.
  destruct (nan_score_is_selected (L := libs_three) word_three_examples)
    as [Hbic _].
  apply (Hbic 2 nan).
  - vm_compute. left. reflexivity.
  - reflexivity.
  - intros n' sc' Hin Hlt. vm_compute in Hin.
    destruct Hin as [Hin | [Hin | [Hin | []]]]; injection Hin as <- <-; lia.
Defined.

(** X8 on the word of three examples with five folds. *)
Lemma SelectorCV_split_failure_witness :
  (2 < List.length (sequences word_three_examples))%nat
  /\ KFold_split (Libs := libs_five_folds)
       (List.length (sequences word_three_examples)) = None
  /\ exists t,
       SelectorCV_select (L := libs_five_folds) word_three_examples
       = (Some (Some (3, [1; 2; 3; 4; 5; 6]%nat, [2; 1; 3]%nat)),
          word_three_examples, t)
       /\ fit_events t = [(3, 14, [1; 2; 3; 4; 5; 6]%nat, [2; 1; 3]%nat)]
       /\ score_events t = []
       /\ split_events t = map (fun _ => 3%nat) [2; 3; 4].
Proof.
  assert (Hlen : (2 < List.length (sequences word_three_examples))%nat)
    by (vm_compute; lia).
  assert (Hsplit : KFold_split (Libs := libs_five_folds)
                     (List.length (sequences word_three_examples)) = None)
    by (vm_compute; reflexivity).
  split; [exact Hlen | ]. split; [exact Hsplit | ].
  exact (@SelectorCV_split_failure _ _ libs_five_folds word_three_examples
           Hlen Hsplit).
Defined.

(** X9 on the word of three examples with three folds. *)
Lemma SelectorCV_select_on_folds_witness :
  let w := word_three_examples in
  let folds := [([1; 2], [0]); ([0; 2], [1]); ([0; 1], [2])]%nat in
  (2 < List.length (sequences w))%nat
  /\ KFold_split (Libs := libs_three) (List.length (sequences w)) = Some folds
  /\ exists best d t,
       SelectorCV_select (L := libs_three) w
       = (Some (hmm_fit (Libs := libs_three) best 14 (fst d) (snd d)),
          with_X_lengths w (fst d) (snd d),
          t ++ base_model_events (L := libs_three)
                 (with_X_lengths w (fst d) (snd d)) best)
       /\ Forall (cv_event_ok (L := libs_three) w folds) t
       /\ (d = (X w, lengths w) \/ train_of_fold w folds d)
       /\ (candidate_range w <> [] -> first_fold_trains w folds ->
           train_of_fold w folds d).
Proof.
  intros w folds.
  assert (Hlen : (2 < List.length (sequences w))%nat) by (vm_compute; lia).
  assert (Hsplit : KFold_split (Libs := libs_three) (List.length (sequences w))
                   = Some folds) by (vm_compute; reflexivity).
  split; [exact Hlen | ]. split; [exact Hsplit | ].
  exact (@SelectorCV_select_on_folds _ _ libs_three w folds Hlen Hsplit).
Defined.

(** X10 on the word of three examples: the second run returns the model of
    the first, fit on the three frames the first left in [self.X]. *)
Lemma SelectorCV_select_idempotent_witness :
  exists r1 s1 t1,
    SelectorCV_select (L := libs_three) word_three_examples = (r1, s1, t1)
    /\ r1 = Some (Some (3, [1; 2; 3]%nat, [2; 1]%nat))
    /\ SelectorCV_select (L := libs_three) s1 = (r1, s1, t1).
Proof.
  assert (Hr : result (SelectorCV_select (L := libs_three) word_three_examples)
               = Some (Some (3, [1; 2; 3]%nat, [2; 1]%nat)))
    by (vm_compute; reflexivity).
  destruct (SelectorCV_select (L := libs_three) word_three_examples)
    as [[r1 s1] t1] eqn:E.
  exists r1, s1, t1. split; [reflexivity | ]. split; [exact Hr | ].
  exact (@SelectorCV_select_idempotent _ _ libs_three word_three_examples
           r1 s1 t1 E).
Defined.

End FurtherExamples.
